(** * hdf2tif: the HDF to GeoTIFF conversion script, embedded in Rocq

    The script [hdf2tif.py] is a straight pipeline over the file system and
    the GDAL raster library.  The embedding has three layers:

    - [Py]: the string and path functions of Python 2 the script calls
      ([str.replace], [str.split], [str.zfill], [repr], [os.path.join],
      [os.path.splitext], ...), as executable functions on [string];
    - [Xml]: the part of [xml.etree.ElementTree] that [modify_vrt] uses;
    - the script itself, in a state-and-exception monad over a [world]
      that holds a path-keyed file system and the trace of the calls made
      into GDAL.  GDAL is external: what it reads from a data set is a
      parameter ([gdal]), what it is asked to write is recorded.

    Modelling conventions.  Paths are compared as written (no
    normalisation of [a//b] or [./a]); an entry is inside a directory when
    its path extends the directory's path.  Writes by GDAL to a path always
    succeed, and what GDAL reports about a data set does not depend on the
    files the run writes.  [SetMetadata] is recorded in the trace and
    leaves the files as they are.  The band arguments are integers:
    [int(str(b))] is the identity on them.

    What the Python runtime leaves open is a parameter as well: the order
    in which a dictionary lists its keys, the order in which a directory
    is listed, and what [glob] returns for a pattern whose directory part
    holds wildcard characters. *)

From stdpp Require Import gmap strings list sorting pretty.
From Stdlib Require Import ZArith Ascii.

Local Open Scope Z_scope.

(** ** Python strings and paths *)

Module Py.

(** [s[len(p):]] when [s.startswith(p)]. *)
Fixpoint strip_prefix (p s : string) : option string :=
  match p, s with
  | EmptyString, _ => Some s
  | String a p', String b s' =>
      if decide (a = b) then strip_prefix p' s' else None
  | String _ _, EmptyString => None
  end.

Definition startswith (s p : string) : bool :=
  bool_decide (is_Some (strip_prefix p s)).

Fixpoint endswith (s suffix : string) : bool :=
  bool_decide (s = suffix) ||
  match s with
  | EmptyString => false
  | String _ s' => endswith s' suffix
  end.

(** [sub in s]. *)
Fixpoint contains (sub s : string) : bool :=
  startswith s sub ||
  match s with
  | EmptyString => false
  | String _ s' => contains sub s'
  end.

(** [s.replace(old, new)] for a non-empty [old]: occurrences are taken
    left to right and do not overlap.  The fuel bounds the number of
    steps by the length of [s]. *)
Fixpoint replace_from (fuel : nat) (old new s : string) : string :=
  match fuel with
  | O => s
  | S fuel' =>
      match strip_prefix old s with
      | Some rest => new +:+ replace_from fuel' old new rest
      | None =>
          match s with
          | EmptyString => EmptyString
          | String c s' => String c (replace_from fuel' old new s')
          end
      end
  end.

(** With an empty [old], Python puts [new] before every character and at
    the end. *)
Fixpoint intersperse (new s : string) : string :=
  match s with
  | EmptyString => new
  | String c s' => new +:+ String c (intersperse new s')
  end.

Definition replace (s old new : string) : string :=
  match old with
  | EmptyString => intersperse new s
  | String _ _ => replace_from (S (String.length s)) old new s
  end.

(** [s.split(sep)] for a one-character separator. *)
Fixpoint split (sep : ascii) (s : string) : list string :=
  match s with
  | EmptyString => [EmptyString]
  | String c s' =>
      if decide (c = sep) then EmptyString :: split sep s'
      else match split sep s' with
           | w :: ws => String c w :: ws
           | [] => [String c EmptyString]
           end
  end.

(** [l[-1]] of a list of strings; the lists it is applied to are never
    empty. *)
Definition last_field (l : list string) : string := default EmptyString (last l).

Definition lower_char (c : ascii) : ascii :=
  let n := N_of_ascii c in
  if ((65 <=? n) && (n <=? 90))%N then ascii_of_N (n + 32) else c.

Fixpoint lower (s : string) : string :=
  match s with
  | EmptyString => EmptyString
  | String c s' => String (lower_char c) (lower s')
  end.

Fixpoint zeros (n : nat) : string :=
  match n with
  | O => EmptyString
  | S n' => String "0" (zeros n')
  end.

(** [s.zfill(width)]: pad on the left with zeros, after the sign. *)
Definition zfill (width : nat) (s : string) : string :=
  let fill := zeros (width - String.length s) in
  match s with
  | String c s' =>
      if bool_decide (c = "+"%char ∨ c = "-"%char)
      then String c (fill +:+ s')
      else fill +:+ s
  | EmptyString => fill
  end.

(** [str(n)] for an integer. *)
Definition str_nat (n : nat) : string := pretty n.
Definition str_int (z : Z) : string := pretty z.

(** [repr(s)] for a byte string. *)
Definition hex_digit (n : N) : ascii :=
  match n with
  | 10 => "a" | 11 => "b" | 12 => "c" | 13 => "d" | 14 => "e" | 15 => "f"
  | _ => pretty_N_char n
  end%N%char.

Definition repr_char (quote c : ascii) : string :=
  let n := N_of_ascii c in
  if bool_decide (c = quote ∨ c = "\"%char) then String "\" (String c EmptyString)
  else if bool_decide (n = 9%N) then "\t"
  else if bool_decide (n = 10%N) then "\n"
  else if bool_decide (n = 13%N) then "\r"
  else if ((n <? 32) || (127 <=? n))%N
       then String "\" (String "x" (String (hex_digit (n / 16))
              (String (hex_digit (n mod 16)) EmptyString)))
  else String c EmptyString.

Fixpoint repr_body (quote : ascii) (s : string) : string :=
  match s with
  | EmptyString => EmptyString
  | String c s' => repr_char quote c +:+ repr_body quote s'
  end.

Definition dquote : ascii := "034"%char.

Definition repr (s : string) : string :=
  let quote : ascii :=
    if contains "'" s && negb (contains (String dquote EmptyString) s)
    then dquote else "'"%char in
  String quote (repr_body quote s +:+ String quote EmptyString).

Fixpoint join_with (sep : string) (l : list string) : string :=
  match l with
  | [] => EmptyString
  | [x] => x
  | x :: l' => x +:+ sep +:+ join_with sep l'
  end.

(** [str(l)] for a list of strings. *)
Definition str_list (l : list string) : string :=
  "[" +:+ join_with ", " (repr <$> l) +:+ "]".

(** [os.path.join(a, b)] on a POSIX system. *)
Definition join (a b : string) : string :=
  if startswith b "/" then b
  else if bool_decide (a = EmptyString) || endswith a "/" then a +:+ b
  else a +:+ "/" +:+ b.

(** [os.path.splitext(p)[0]].  The extension starts at the last dot of
    the last path component, unless only dots precede it there. *)
Fixpoint rsplit_at (c : ascii) (s : string) : option (string * string) :=
  match s with
  | EmptyString => None
  | String a s' =>
      match rsplit_at c s' with
      | Some (l, r) => Some (String a l, r)
      | None => if decide (a = c) then Some (EmptyString, s') else None
      end
  end.

Fixpoint lstrip_dots (s : string) : string * string :=
  match s with
  | String "." s' => let '(d, r) := lstrip_dots s' in (String "." d, r)
  | _ => (EmptyString, s)
  end.

Definition splitext_root (p : string) : string :=
  let '(head, base) :=
    match rsplit_at "/" p with
    | Some (h, b) => (h +:+ "/", b)
    | None => (EmptyString, p)
    end in
  let '(dots, rest) := lstrip_dots base in
  match rsplit_at "." rest with
  | Some (stem, _) => head +:+ dots +:+ stem
  | None => p
  end.

End Py.


(** ** XML elements, as [xml.etree.ElementTree] presents them *)

Module Xml.

#[warnings="-register-all"]
Inductive element : Type :=
  Element (tag : string) (attrib : gmap string string)
          (text : option string) (children : list element).

Definition tag (e : element) : string :=
  let 'Element t _ _ _ := e in t.
Definition attrib (e : element) : gmap string string :=
  let 'Element _ a _ _ := e in a.
Definition text (e : element) : option string :=
  let 'Element _ _ x _ := e in x.
Definition children (e : element) : list element :=
  let 'Element _ _ _ c := e in c.

(** [e.find(t)] with a plain tag: the first direct child with that tag,
    together with its position (the position stands for the identity of
    the child object, which later calls mutate in place). *)
Definition find (t : string) (e : element) : option (nat * element) :=
  list_find (λ c, tag c = t) (children e).

(** [e.set(key, value)]. *)
Definition set (key value : string) (e : element) : element :=
  Element (tag e) (<[key := value]> (attrib e)) (text e) (children e).

(** The effect on [e] of mutating its [i]-th child into [c]. *)
Definition with_child (i : nat) (c : element) (e : element) : element :=
  Element (tag e) (attrib e) (text e) (<[i := c]> (children e)).

(** [SubElement(parent, t)] followed by [.text = x]: a new last child. *)
Definition sub_element (t : string) (x : option string) (parent : element)
    : element :=
  Element (tag parent) (attrib parent) (text parent)
          (children parent ++ [Element t ∅ x []]).

(** Line ends as an XML parser reads them: a carriage return, with the
    line feed that follows it if there is one, is read as a line feed. *)
Fixpoint line_ends (s : string) : string :=
  match s with
  | EmptyString => EmptyString
  | String c s' =>
      if bool_decide (N_of_ascii c = 13%N) then
        match s' with
        | String d s'' =>
            if bool_decide (N_of_ascii d = 10%N) then String d (line_ends s'')
            else String "010" (line_ends s')
        | EmptyString => String "010" EmptyString
        end
      else String c (line_ends s')
  end.

(** A byte string that [write] can encode: [write] encodes a text to
    ASCII, which for a byte string of Python 2 decodes it from ASCII
    first, and that raises [UnicodeDecodeError] at a byte above 127. *)
Definition encodable (x : string) : bool :=
  forallb (λ c, N_of_ascii c <=? 127)%N (String.list_ascii_of_string x).

(** A character that [write] puts into the file as it is and that no XML
    document may hold: a control character other than tab, line feed and
    carriage return. *)
Definition unreadable (c : ascii) : bool :=
  let n := N_of_ascii c in
  ((n <? 32) && negb ((n =? 9) || (n =? 10) || (n =? 13)))%N.

(** The text of an element as [parse] returns it from a file where
    [write] has put the encodable text [x]: an empty text is read as no
    text, line ends are normalised, the characters of XML are escaped and
    read back; [None] when the file written is no XML document. *)
Definition written_text (x : string) : option (option string) :=
  if existsb unreadable (String.list_ascii_of_string x) then None
  else match x with
       | EmptyString => Some None
       | String _ _ => Some (Some (line_ends x))
       end.


End Xml.

(** ** The world: files, directories and the calls into GDAL *)

Inductive content : Type :=
  | Bytes                          (* data that is no XML document *)
  | XmlDoc (root : Xml.element).   (* an XML document: the tree that
                                      [parse] returns for it *)

Inductive node : Type :=
  | Dir
  | File (c : content).

Record WarpOptions : Type := mkWarpOptions {
  srcSRS : string;
  dstSRS : string;
  warpMemoryLimit : string;
  multithread : bool;
}.

(** One constructor per GDAL call that writes. *)
Inductive event : Type :=
  | BuildVRT (dest src : string)
  | BuildVRT_list (dest : string) (srcs : list string) (separate : bool)
  | Warp (dest src : string) (options : option WarpOptions)
  | SetMetadata (path metadata : string).

Record world : Type := mkWorld {
  fs : gmap string node;
  calls : list event;
}.

(** A character that [glob] reads as a wildcard. *)
Definition is_magic (c : ascii) : bool :=
  bool_decide (c = "*"%char ∨ c = "?"%char ∨ c = "["%char).

(** [glob.has_magic(s)]. *)
Definition has_magic (s : string) : bool :=
  existsb is_magic (String.list_ascii_of_string s).

(** What the run takes from outside: what GDAL reports about the data
    sets it is asked to open (a [None] stands for [gdal.Open] returning
    [None]), and what the Python runtime leaves open. *)
Record gdal : Type := mkGdal {
  (** [gdal.Open(hdf).GetSubDatasets()]: (name, description) pairs. *)
  GetSubDatasets : string → option (list (string * string));
  (** [gdal.Open(subdataset).GetMetadata_Dict()]. *)
  GetMetadata_Dict : string → option (gmap string string);
  (** The XML document [gdal.BuildVRT(dest, src)] writes for one source. *)
  vrt_document : string → option Xml.element;
  (** [d.keys()]: the keys of a dictionary in the order in which CPython
      lists them, which follows the hashes of the keys. *)
  keys_order : gmap string string → list string;
  keys_order_all : ∀ d, keys_order d ≡ₚ (map_to_list d).*1;
  (** The order in which [glob] returns the entries it finds in one
      directory, which is the order of [os.listdir]. *)
  listing_order : list string → list string;
  listing_order_all : ∀ l, listing_order l ≡ₚ l;
  (** [glob.glob(pattern)] on a disk, for a pattern with a wildcard in its
      directory part or with a file extension that is not plain. *)
  glob_wild : string → gmap string node → list string;
}.

(** The key of a failed dictionary lookup. *)
Inductive key : Type :=
  | IntKey (z : Z)
  | StrKey (s : string).

(** The Python exceptions the script can end with.  [AttributeError] is
    what a method call on [None] raises ([gdal.Open] and [find] return
    [None] when they fail); [IOError] and [ParseError] come from
    [ElementTree.parse], [OSError] from [os] and [shutil]. *)
Inductive exn : Type :=
  | IndexError
  | KeyError (k : key)
  | AttributeError
  | OSError
  | IOError
  | ParseError
  | UnicodeDecodeError.

(** [IndexError] and [KeyError] are the subclasses of [LookupError]. *)
Definition is_LookupError (e : exn) : bool :=
  match e with
  | IndexError | KeyError _ => true
  | _ => false
  end.

Inductive result (A : Type) : Type :=
  | Ok (a : A)
  | Raise (e : exn).
Arguments Ok {A} a.
Arguments Raise {A} e.

(** Computations that read and change the world and may raise. *)
Definition M (A : Type) : Type := world → result A * world.

Definition ret {A} (a : A) : M A := λ w, (Ok a, w).
Definition raise {A} (e : exn) : M A := λ w, (Raise e, w).
Definition bind {A B} (m : M A) (k : A → M B) : M B :=
  λ w, match m w with
       | (Ok a, w') => k a w'
       | (Raise e, w') => (Raise e, w')
       end.

#[global] Instance M_ret : MRet M := @ret.
#[global] Instance M_bind : MBind M := λ A B k m, bind m k.

(** [for x in l: body(x)]. *)
Fixpoint for_each {A} (l : list A) (body : A → M unit) : M unit :=
  match l with
  | [] => ret tt
  | x :: l' => body x ;; for_each l' body
  end.

(** [enumerate(l, start)]. *)
Definition enumerate {A} (start : nat) (l : list A) : list (nat * A) :=
  imap (λ i x, ((start + i)%nat, x)) l.

(** [sorted(l)] on strings: byte-wise lexicographic order. *)
Definition sorted (l : list string) : list string := merge_sort String.le l.

(** *** File-system primitives *)

(** The prefix that the paths of the entries of [directory] start with. *)
Definition dir_prefix (directory : string) : string := Py.join directory EmptyString.

(** [path] lies inside [directory], at any depth. *)
Definition inside (directory path : string) : bool :=
  Py.startswith path (dir_prefix directory).

(** [glob] on [directory/*.extension]: the entries directly in
    [directory] whose name ends with [.extension] and is not hidden. *)
Definition glob_match (directory extension path : string) : bool :=
  match Py.strip_prefix (dir_prefix directory) path with
  | Some name =>
      negb (Py.contains "/" name)
      && negb (Py.startswith name ".")
      && Py.endswith name ("." +:+ extension)
  | None => false
  end.

(** A directory that [glob] takes as it is written: it holds no wildcard,
    and no doubled slash at its end (which [os.path.split] drops from the
    paths returned). *)
Definition tame (directory : string) : bool :=
  negb (has_magic directory) && negb (Py.endswith directory "//").

(** An extension with which [*.extension] is a pattern for the name of an
    entry, matched by the names that end with [.extension]: it holds no
    wildcard and no slash. *)
Definition tame_extension (extension : string) : bool :=
  negb (has_magic extension) && negb (Py.contains "/" extension).

Definition os_path_exists (path : string) : M bool :=
  λ w, (Ok (bool_decide (is_Some (fs w !! path))), w).

Definition os_makedirs (path : string) : M unit :=
  λ w, match fs w !! path with
       | Some _ => (Raise OSError, w)
       | None =>
           if bool_decide (path = EmptyString) then (Raise OSError, w)
           else (Ok tt, mkWorld (<[path := Dir]> (fs w)) (calls w))
       end.

(** [os.remove] deletes a file and refuses anything else. *)
Definition os_remove (path : string) : M unit :=
  λ w, match fs w !! path with
       | Some (File _) => (Ok tt, mkWorld (delete path (fs w)) (calls w))
       | _ => (Raise OSError, w)
       end.

(** [shutil.rmtree] deletes a directory and all that lies inside it. *)
Definition shutil_rmtree (path : string) : M unit :=
  λ w, match fs w !! path with
       | Some Dir =>
           (Ok tt,
            mkWorld (filter (λ kv, ¬ inside path kv.1) (delete path (fs w)))
                    (calls w))
       | _ => (Raise OSError, w)
       end.

Definition write_file (path : string) (c : content) : M unit :=
  λ w, (Ok tt, mkWorld (<[path := File c]> (fs w)) (calls w)).

Definition emit (e : event) : M unit :=
  λ w, (Ok tt, mkWorld (fs w) (calls w ++ [e])).

(** [xml.etree.ElementTree.parse(path).getroot()]. *)
Definition parse (path : string) : M Xml.element :=
  λ w, match fs w !! path with
       | Some (File (XmlDoc root)) => (Ok root, w)
       | Some (File Bytes) => (Raise ParseError, w)
       | _ => (Raise IOError, w)
       end.

(** ** The script *)

(** Line 180: the label of the subdataset at 0-based position [index],
    given the fifth field of its name. *)
Definition band_label (index : nat) (fragment : string) : string :=
  Py.zfill 2 (Py.str_nat (index + 1)) +:+ ":" +:+ fragment.

Section script.

(** The directory of the script itself. *)
Variable DIRECTORY : string.
Variable lib : gdal.

(** Lines 13-22.  For a tame directory and a tame extension, [glob.glob]
    lists the entries of that one directory whose name matches, in the
    order of the directory.  Otherwise the pattern is expanded by [glob]
    in ways that are not modelled: the result is taken from [lib]; with a
    tame extension it still holds only paths that end with the
    extension. *)
Definition list_files (directory extension : string) : M (list string) :=
  λ w,
    let pattern := Py.join directory ("*." +:+ extension) in
    (Ok (if tame directory && tame_extension extension then
           listing_order lib
             (filter (λ p, glob_match directory extension p)
                     (map_to_list (fs w)).*1)
         else if tame_extension extension then
           filter (λ p, Py.endswith p ("." +:+ extension))
                  (glob_wild lib pattern (fs w))
         else glob_wild lib pattern (fs w)), w).

(** Lines 25-37. *)
Definition create_output_directory (hdf : string) : M string :=
  let direc := Py.splitext_root hdf in
  present ← os_path_exists direc;
  (if (present : bool) then ret tt else os_makedirs direc) ;;
  ret direc.

(** [d.keys()]: the keys of a dictionary, in the dictionary's own
    order. *)
Definition keys (d : gmap string string) : list string := keys_order lib d.

(** Lines 40-58.  [filtered_meta.keys()[0]] raises [IndexError] on the
    empty list. *)
Definition get_metadata_item (subdataset keyword : string) : M string :=
  match GetMetadata_Dict lib subdataset with
  | None => raise AttributeError
  | Some metadata =>
      let filtered_meta :=
        filter (λ kv, Py.contains keyword (Py.lower kv.1)) metadata in
      match keys filtered_meta with
      | [] => raise IndexError
      | k :: _ =>
          match filtered_meta !! k with
          | Some v => ret v
          | None => raise (KeyError (StrKey k))
          end
      end
  end.

(** Lines 62-86.  [set] and [SubElement] mutate the elements that [find]
    returned, inside the tree; the second [root.find] therefore sees the
    band with its new attribute.  [SubElement(None, ...)] raises
    [AttributeError].  The tree came from [parse], so that the scale is
    the one text in it that [write] may not be able to put into the file
    as it is.  [write] opens the file for writing before it encodes
    anything: with a scale that cannot be encoded the call raises and
    leaves a truncated file; otherwise the file holds the document with
    the scale as it is read back, or no XML document. *)
Definition modify_vrt (vrt scale : string) : M unit :=
  root ← parse vrt;
  match Xml.find "VRTRasterBand" root with
  | None => raise AttributeError
  | Some (i, raster_band) =>
      let root := Xml.with_child i (Xml.set "dataType" "Float32" raster_band) root in
      match Xml.find "VRTRasterBand" root with
      | None => raise AttributeError
      | Some (j, band) =>
          match Xml.find "ComplexSource" band with
          | None => raise AttributeError
          | Some (k, source) =>
              if Xml.encodable scale then
                match Xml.written_text scale with
                | Some text =>
                    let source := Xml.sub_element "ScaleRatio" text source in
                    let root :=
                      Xml.with_child j (Xml.with_child k source band) root in
                    write_file vrt (XmlDoc root)
                | None => write_file vrt Bytes
                end
              else write_file vrt Bytes ;; raise UnicodeDecodeError
          end
      end
  end.

(** [gdal.BuildVRT(dest, src)] with one source; when GDAL cannot open the
    source it reports the error without raising and writes nothing. *)
Definition gdal_BuildVRT (dest src : string) : M unit :=
  emit (BuildVRT dest src) ;;
  match vrt_document lib src with
  | Some doc => write_file dest (XmlDoc doc)
  | None => ret tt
  end.

Definition gdal_BuildVRT_list (dest : string) (srcs : list string)
    (separate : bool) : M unit :=
  emit (BuildVRT_list dest srcs separate) ;;
  write_file dest Bytes.

Definition gdal_Warp (dest src : string) (options : option WarpOptions) : M unit :=
  emit (Warp dest src options) ;;
  write_file dest Bytes.

(** [gdal.Open(path).SetMetadata(metadata)]; [gdal.Open] returns [None]
    for a path that is not a file, and the method call then raises. *)
Definition gdal_SetMetadata (path metadata : string) : M unit :=
  λ w, match fs w !! path with
       | Some (File _) => emit (SetMetadata path metadata) w
       | _ => (Raise AttributeError, w)
       end.

(** The name of the VRT of one band, in the two branches (lines 105-108
    and 122-124). *)
Definition band_vrt_name (order : nat) (band : Z) (name : string) : string :=
  Py.zfill 2 (Py.str_nat order) +:+ "_Band" +:+ Py.zfill 2 (Py.str_int band)
    +:+ "_" +:+ Py.last_field (Py.split ":" name) +:+ ".vrt".

Definition plain_vrt_name (order : nat) (name : string) : string :=
  "Band" +:+ Py.zfill 2 (Py.str_nat order) +:+ "_" +:+ name +:+ ".vrt".

(** Lines 111-116, and again 126-130. *)
Definition build_band (output_name source : string) : M unit :=
  gdal_BuildVRT output_name source ;;
  scale ← get_metadata_item source "scale";
  modify_vrt output_name scale.

(** Lines 100-101: the dictionary of the subdatasets the band list asks
    for, keyed by 1-based position. *)
Definition band_dict (subdatasets : list (string * string)) (bands : list Z)
    : gmap Z (string * string) :=
  list_to_map
    (filter (λ kv, kv.1 ∈ bands)
            (prod_map Z.of_nat id <$> enumerate 1 subdatasets)).

(** The body of the loop over the requested bands. *)
Definition convert_band (subdatasets_dict : gmap Z (string * string))
    (data_dir : string) (item : nat * Z) : M unit :=
  let '(order, band) := item in
  match subdatasets_dict !! band with
  | None => raise (KeyError (IntKey band))
  | Some sub =>
      build_band (Py.join data_dir (band_vrt_name order band sub.1)) sub.1
  end.

(** The body of the loop over all subdatasets. *)
Definition convert_plain (data_dir : string) (item : nat * (string * string))
    : M unit :=
  let '(order, sub) := item in
  build_band (Py.join data_dir (plain_vrt_name order sub.1)) sub.1.

(** Lines 89-130.  The band list holds integers ([int(str(b))] is the
    identity on them).  In the branch without a band list the loop runs
    over [dict(enumerate(subdatasets, start=1)).items()]; CPython 2 lists a
    dictionary whose keys are 1..n in increasing order, so the loop runs
    over the enumeration itself. *)
Definition convert_to_vrt (subdatasets : list (string * string))
    (data_dir : string) (bands : list Z) : M unit :=
  match bands with
  | _ :: _ =>
      let subdatasets_dict := band_dict subdatasets bands in
      for_each (enumerate 1 bands) (convert_band subdatasets_dict data_dir)
  | [] =>
      for_each (enumerate 1 subdatasets) (convert_plain data_dir)
  end.

(** Lines 132-136. *)
Definition clear_temp_files (data_dir vrt_output : string) : M unit :=
  os_remove vrt_output ;;
  shutil_rmtree data_dir.

(** Lines 148-152. *)
Definition overwrite_step (overwrite : bool) : M unit :=
  if overwrite then
    files ← list_files DIRECTORY "tif";
    match files with
    | f :: _ => os_remove f
    | [] => ret tt
    end
  else ret tt.

(** Lines 160 and 169. *)
Definition vrt_output_of (hdf : string) : string := Py.replace hdf ".hdf" ".vrt".
Definition output_tiff_of (hdf : string) : string :=
  Py.replace (vrt_output_of hdf) ".vrt" ".tif".

(** Lines 158-161; [separate=True] keeps one band per source. *)
Definition merge_step (data_dir vrt_output : string) : M unit :=
  vrt_list ← list_files data_dir "vrt";
  gdal_BuildVRT_list vrt_output (sorted vrt_list) true.

Definition sinusoidal : string := "+proj=sinu +R=6371007.181 +nadgrids=@null +wktext".

(** Lines 162-173; without reprojection the options are the empty
    string, [None] here. *)
Definition warp_step (vrt_output output_tiff : string) (reproject : bool) : M unit :=
  let warp_options :=
    if reproject
    then Some (mkWarpOptions sinusoidal "EPSG:4326" "4096" true)
    else None in
  present ← os_path_exists output_tiff;
  if (present : bool) then ret tt else gdal_Warp output_tiff vrt_output warp_options.

(** Lines 175-182: the band names, or [IndexError] when a subdataset
    name has fewer than five fields. *)
Fixpoint band_names (index : nat) (subdatasets : list (string * string))
    : option (list string) :=
  match subdatasets with
  | [] => Some []
  | subd :: rest =>
      match Py.split ":" subd.1 !! 4%nat with
      | None => None
      | Some fragment =>
          cons (band_label index fragment) <$> band_names (S index) rest
      end
  end.

(** Lines 175-185: nothing is attached when a label cannot be built. *)
Definition inject_metadata (subdatasets : list (string * string))
    (output_tiff : string) : M unit :=
  match band_names 0 subdatasets with
  | None => raise IndexError
  | Some metadata => gdal_SetMetadata output_tiff (Py.str_list metadata)
  end.

(** Lines 139-189. *)
Definition hdf2tif (hdf : string) (overwrite : bool) (bands : list Z)
    (reproject : bool) : M string :=
  overwrite_step overwrite ;;
  match GetSubDatasets lib hdf with
  | None => raise AttributeError
  | Some subdatasets =>
      data_dir ← create_output_directory hdf;
      convert_to_vrt subdatasets data_dir bands ;;
      let vrt_output := vrt_output_of hdf in
      merge_step data_dir vrt_output ;;
      let output_tiff := output_tiff_of hdf in
      warp_step vrt_output output_tiff reproject ;;
      inject_metadata subdatasets output_tiff ;;
      clear_temp_files data_dir vrt_output ;;
      ret output_tiff
  end.

(** The steps of [hdf2tif] before the warp (lines 148-161), with the
    values the later steps use, and the steps after it (lines 175-189). *)
Definition prepare (hdf : string) (overwrite : bool) (bands : list Z)
    : M (list (string * string) * string) :=
  overwrite_step overwrite ;;
  match GetSubDatasets lib hdf with
  | None => raise AttributeError
  | Some subdatasets =>
      data_dir ← create_output_directory hdf;
      convert_to_vrt subdatasets data_dir bands ;;
      merge_step data_dir (vrt_output_of hdf) ;;
      ret (subdatasets, data_dir)
  end.

Definition finish (hdf : string) (subdatasets : list (string * string))
    (data_dir : string) : M string :=
  inject_metadata subdatasets (output_tiff_of hdf) ;;
  clear_temp_files data_dir (vrt_output_of hdf) ;;
  ret (output_tiff_of hdf).

End script.


(** The calls that build the VRT of a single band; the other calls write
    the merged VRT, the TIFF or its metadata. *)
Definition is_band_build (e : event) : bool :=
  match e with
  | BuildVRT _ _ => true
  | _ => false
  end.

(** [appends P m]: whatever [m] does, the calls it makes all satisfy [P]
    and are added at the end of the trace. *)
Definition appends {A} (P : event → Prop) (m : M A) : Prop :=
  ∀ w r w', m w = (r, w') → ∃ l, calls w' = calls w ++ l ∧ Forall P l.


(** The call that attaches the band names. *)
Definition is_metadata_call (e : event) : bool :=
  match e with
  | SetMetadata _ _ => true
  | _ => false
  end.

(** [creates S m]: whatever [m] does, an entry that exists afterwards
    existed before or has a path in [S]. *)
Definition creates {A} (S : string → Prop) (m : M A) : Prop :=
  ∀ w r w', m w = (r, w') →
    ∀ q, is_Some (fs w' !! q) → is_Some (fs w !! q) ∨ S q.

Definition is_digit (c : ascii) : bool :=
  ((48 <=? N_of_ascii c) && (N_of_ascii c <=? 57))%N.

(** The single-band VRT that one turn of the loops of [convert_to_vrt]
    builds: its path and its source. *)
Definition band_target (subdatasets_dict : gmap Z (string * string))
    (data_dir : string) (item : nat * Z) : option (string * string) :=
  let '(order, band) := item in
  (λ sub : string * string,
     (Py.join data_dir (band_vrt_name order band sub.1), sub.1))
    <$> subdatasets_dict !! band.

Definition plain_target (data_dir : string) (item : nat * (string * string))
    : string * string :=
  let '(order, sub) := item in
  (Py.join data_dir (plain_vrt_name order sub.1), sub.1).

(** The targets of a whole call, in the order of the band list, or of the
    subdatasets when there is no band list. *)
Definition band_targets (subdatasets : list (string * string))
    (data_dir : string) (bands : list Z) : list (string * string) :=
  match bands with
  | _ :: _ =>
      omap (band_target (band_dict subdatasets bands) data_dir)
           (enumerate 1 bands)
  | [] => plain_target data_dir <$> enumerate 1 subdatasets
  end.


Definition build_call (target : string * string) : event :=
  BuildVRT target.1 target.2.




(** The characters of a string. *)
Abbreviation chars := String.list_ascii_of_string.


(** Refutes the membership [H] of a character in a list of other
    characters. *)
Ltac not_in_literal H :=
  repeat (apply elem_of_cons in H as [H|H]; [discriminate H|]);
  by apply elem_of_nil in H.

(** ** Notions for the further properties *)

(** [touches S m]: whatever [m] does, the entries whose path is not in [S]
    are afterwards exactly as they were. *)
Definition touches {A} (S : string → Prop) (m : M A) : Prop :=
  ∀ w r w', m w = (r, w') → ∀ q, ¬ S q → fs w' !! q = fs w !! q.

(** [writes_files m]: whatever [m] does, every path holds afterwards what
    it held before, or a regular file: nothing is deleted and no directory
    is made. *)
Definition writes_files {A} (m : M A) : Prop :=
  ∀ w r w', m w = (r, w') →
    ∀ q, fs w' !! q = fs w !! q ∨ ∃ c, fs w' !! q = Some (File c).

(** The paths a run of [hdf2tif] can write to or delete, as the run
    spells them: a path that ends with [.tif] (with the overwrite flag),
    the working directory and what lies in it, the merged VRT and the
    output. *)
Definition run_paths (hdf : string) (overwrite : bool) (q : string) : bool :=
  overwrite && Py.endswith q ".tif"
  || bool_decide (q = Py.splitext_root hdf)
  || inside (Py.splitext_root hdf) q
  || bool_decide (q = vrt_output_of hdf)
  || bool_decide (q = output_tiff_of hdf).

(** An upper-case ASCII letter. *)
Definition is_upper (c : ascii) : bool :=
  ((65 <=? N_of_ascii c) && (N_of_ascii c <=? 90))%N.

(** The stem of an input path as the script expects it: it ends with a
    character other than a dot or a slash and contains neither [.hdf] nor
    [.vrt]. *)
Definition well_named (stem : string) : bool :=
  match last (chars stem) with
  | Some c => negb (bool_decide (c = "."%char ∨ c = "/"%char))
  | None => false
  end
  && negb (Py.contains ".hdf" stem) && negb (Py.contains ".vrt" stem).

(** The calls of the warp step: none when the output was there, one
    otherwise (lines 162-173). *)
Definition warp_call (vrt_output output_tiff : string) (reproject : bool)
    : event :=
  Warp output_tiff vrt_output
    (if reproject
     then Some (mkWarpOptions sinusoidal "EPSG:4326" "4096" true)
     else None).




(** ** A sample data set *)

Module Sample.

Definition ndvi : string := "HDF4_EOS:EOS_GRID:MOD13.hdf:grid:NDVI".
Definition evi : string := "HDF4_EOS:EOS_GRID:MOD13.hdf:grid:EVI".
Definition quality : string := "HDF4_EOS:EOS_GRID:MOD13.hdf:grid:QA".

Definition raster_band (band_type : string) (sources : list Xml.element)
    : Xml.element :=
  Xml.Element "VRTRasterBand" {[ "dataType" := band_type ]} None sources.

Definition complex_source (src : string) : Xml.element :=
  Xml.Element "ComplexSource" ∅ None
    [Xml.Element "SourceFilename" ∅ (Some src) []].

Definition document (src : string) : Xml.element :=
  Xml.Element "VRTDataset" ∅ None [raster_band "Int16" [complex_source src]].


(** [MOD13.hdf] holds three subdatasets, the third of which has no scale;
    [pair.hdf] and [MOD09.HDF] hold the first two.  Every source gets a
    one-band VRT of type [Int16]. *)
Definition lib : gdal :=
  mkGdal
    (λ p, if decide (p = "MOD13.hdf") then
            Some [(ndvi, "NDVI"); (evi, "EVI"); (quality, "QA")]
          else if decide (p = "MOD09.HDF" ∨ p = "pair.hdf") then
            Some [(ndvi, "NDVI"); (evi, "EVI")]
          else None)
    (λ s, if decide (s = ndvi ∨ s = evi) then
            Some {[ "Scale_Factor" := "0.0001"; "units" := "none" ]}
          else if decide (s = quality) then Some {[ "units" := "bits" ]}
          else None)
    (λ s, Some (document s))
    (λ d, (map_to_list d).*1) (λ d, Permutation_refl _)
    (λ l, l) (λ l, Permutation_refl l)
    (λ _ _, []).

Definition disk : world :=
  mkWorld {[ "MOD13.hdf" := File Bytes; "pair.hdf" := File Bytes;
             "MOD09.HDF" := File Bytes ]} [].


Definition two_tiffs : world :=
  mkWorld (<["/opt/geo/a.tif" := File Bytes]>
             (<["/opt/geo/b.tif" := File Bytes]> (fs disk))) [].

(** The same disk with the working directory of an earlier run that
    stopped early, and one VRT left in it. *)
Definition leftover : world :=
  mkWorld (<["pair" := Dir]>
             (<["pair/01_Band01_NDVI.vrt" := File (XmlDoc (document ndvi))]>
                (fs disk))) [].



(** A subdataset name with three fields only. *)
Definition sds : string := "HDF4_SDS:a.hdf:3".

(** A library that opens every path: [short.hdf] holds a subdataset with
    the short name, any other path the first two subdatasets. *)
Definition loose : gdal :=
  mkGdal
    (λ p, if decide (p = "short.hdf") then Some [(ndvi, "NDVI"); (sds, "QA")]
          else Some [(ndvi, "NDVI"); (evi, "EVI")])
    (GetMetadata_Dict lib)
    (vrt_document lib)
    (keys_order lib) (keys_order_all lib)
    (listing_order lib) (listing_order_all lib)
    (glob_wild lib).

(** The disk with a directory named like a TIFF beside the script. *)
Definition tiff_directory : world :=
  mkWorld (<["/opt/geo/tiles.tif" := Dir]> (fs disk)) [].

End Sample.

(** * Properties *)

Example replace_hdf : Py.replace "/data/MOD13Q1.hdf" ".hdf" ".vrt" = "/data/MOD13Q1.vrt".
Proof. reflexivity. Qed.
Example split_conn :
  Py.split ":" "HDF4_EOS:EOS_GRID:a.hdf:grid:NDVI"
  = ["HDF4_EOS"; "EOS_GRID"; "a.hdf"; "grid"; "NDVI"].
Proof. reflexivity. Qed.
Example zfill_7 : Py.zfill 2 (Py.str_nat 7) = "07".
Proof. reflexivity. Qed.
Example zfill_123 : Py.zfill 2 (Py.str_nat 123) = "123".
Proof. reflexivity. Qed.
Example zfill_neg : Py.zfill 3 (Py.str_int (-5)) = "-05".
Proof. reflexivity. Qed.
Example splitext_1 : Py.splitext_root "/d.x/a.b.hdf" = "/d.x/a.b".
Proof. reflexivity. Qed.
Example splitext_2 : Py.splitext_root "/d.x/.hdf" = "/d.x/.hdf".
Proof. reflexivity. Qed.
Example splitext_3 : Py.splitext_root "/d.x/..a.hdf" = "/d.x/..a".
Proof. reflexivity. Qed.
Example repr_1 : Py.str_list ["01:NDVI"; "02:EVI"] = "['01:NDVI', '02:EVI']".
Proof. reflexivity. Qed.
Example repr_2 :
  Py.repr "it's" = String Py.dquote ("it's" +:+ String Py.dquote EmptyString).
Proof. reflexivity. Qed.
Example lower_1 : Py.lower "Scale_Factor" = "scale_factor".
Proof. reflexivity. Qed.
Example join_1 : Py.join "a" "b.vrt" = "a/b.vrt" ∧ Py.join "a/" "b" = "a/b" ∧ Py.join EmptyString "b" = "b".
Proof. repeat split; reflexivity. Qed.

(** A complete run on the sample disk, bands 2 and 1 requested. *)
Example sample_run :
  let run := hdf2tif "/opt/geo" Sample.lib "pair.hdf" true [2; 1] true Sample.disk in
  run.1 = Ok "pair.tif"
  ∧ calls run.2
    = [BuildVRT "pair/01_Band02_EVI.vrt" Sample.evi;
       BuildVRT "pair/02_Band01_NDVI.vrt" Sample.ndvi;
       BuildVRT_list "pair.vrt"
         ["pair/01_Band02_EVI.vrt"; "pair/02_Band01_NDVI.vrt"] true;
       Warp "pair.tif" "pair.vrt"
         (Some (mkWarpOptions sinusoidal "EPSG:4326" "4096" true));
       SetMetadata "pair.tif" "['01:NDVI', '02:EVI']"]
  ∧ fs run.2 = <["pair.tif" := File Bytes]> (fs Sample.disk).
Proof. split_and!; vm_compute; reflexivity. Qed.

(** The third subdataset of [MOD13.hdf] has no scale: the run stops in the
    loop, after the builds of the bands before it. *)
Example sample_run_without_scale :
  let run := hdf2tif "/opt/geo" Sample.lib "MOD13.hdf" true [1; 3; 2] true Sample.disk in
  run.1 = Raise IndexError
  ∧ calls run.2
    = [BuildVRT "MOD13/01_Band01_NDVI.vrt" Sample.ndvi;
       BuildVRT "MOD13/02_Band03_QA.vrt" Sample.quality].
Proof. split; vm_compute; reflexivity. Qed.

(** ** Facts about the string functions *)

Module PyFacts.
Import Py.

Lemma app_nil_l (s : string) : EmptyString +:+ s = s.
Proof. reflexivity. Qed.

Lemma app_cons (c : ascii) (a b : string) :
  String c a +:+ b = String c (a +:+ b).
Proof. reflexivity. Qed.

Lemma app_nil_r (s : string) : s +:+ EmptyString = s.
Proof. induction s as [|c s IH]; [done|]. by rewrite app_cons, IH. Qed.

Lemma app_assoc (a b c : string) : (a +:+ b) +:+ c = a +:+ (b +:+ c).
Proof. induction a as [|x a IH]; [done|]. by rewrite !app_cons, IH. Qed.

Lemma length_app (a b : string) :
  String.length (a +:+ b) = (String.length a + String.length b)%nat.
Proof. induction a as [|x a IH]; [done|]. rewrite app_cons. simpl. by rewrite IH. Qed.

Lemma strip_prefix_Some (p s r : string) :
  strip_prefix p s = Some r ↔ s = p +:+ r.
Proof.
  revert s. induction p as [|a p IH]; intros s; simpl.
  - split; [by intros [= ->] | by intros ->].
  - rewrite app_cons. destruct s as [|b s]; [done|].
    destruct (decide (a = b)) as [->|Hne].
    + rewrite IH. split; [by intros -> | by intros [= ->]].
    + split; [done | intros [= ? ?]; congruence].
Qed.

Lemma strip_prefix_app (p r : string) : strip_prefix p (p +:+ r) = Some r.
Proof. by apply strip_prefix_Some. Qed.

Lemma startswith_true (s p : string) :
  startswith s p = true ↔ ∃ r, s = p +:+ r.
Proof.
  unfold startswith. rewrite bool_decide_eq_true. unfold is_Some.
  by setoid_rewrite strip_prefix_Some.
Qed.

Lemma startswith_false (s p : string) :
  startswith s p = false ↔ strip_prefix p s = None.
Proof.
  unfold startswith. rewrite bool_decide_eq_false, <-eq_None_not_Some. done.
Qed.

End PyFacts.

(** ** Running computations *)

Lemma bind_Ok {A B} (m : M A) (k : A → M B) (w w2 : world) (b : B) :
  (m ≫= k) w = (Ok b, w2) ↔ ∃ a w1, m w = (Ok a, w1) ∧ k a w1 = (Ok b, w2).
Proof.
  unfold mbind, M_bind, bind. destruct (m w) as [[a|e] w1]; split.
  - eauto.
  - by intros (? & ? & [= <- <-] & ?).
  - done.
  - by intros (? & ? & [= ] & ?).
Qed.


(** ** Patching a VRT *)








(** ** What a computation adds to the trace *)

Section trace.
Context {P : event → Prop}.

Lemma appends_silent {A} (m : M A) :
  (∀ w r w', m w = (r, w') → calls w' = calls w) → appends P m.
Proof.
  intros Hm w r w' Hrun. exists []. rewrite app_nil_r. eauto.
Qed.

Lemma appends_ret {A} (a : A) : appends P (ret a).
Proof. apply appends_silent. by intros w r w' [= _ <-]. Qed.

Lemma appends_raise {A} (e : exn) : appends P (raise (A := A) e).
Proof. apply appends_silent. by intros w r w' [= _ <-]. Qed.

Lemma appends_bind {A B} (m : M A) (k : A → M B) :
  appends P m → (∀ a, appends P (k a)) → appends P (m ≫= k).
Proof.
  intros Hm Hk w r w' Hrun. unfold mbind, M_bind, bind in Hrun.
  destruct (m w) as [[a|e] w1] eqn:Hmw.
  - destruct (Hm _ _ _ Hmw) as (l1 & Hl1 & HP1).
    destruct (Hk a _ _ _ Hrun) as (l2 & Hl2 & HP2).
    exists (l1 ++ l2). split.
    + by rewrite Hl2, Hl1, (assoc_L (++)).
    + by apply Forall_app.
  - simplify_eq. eauto.
Qed.

Lemma appends_for_each {A} (l : list A) (body : A → M unit) :
  (∀ x, x ∈ l → appends P (body x)) → appends P (for_each l body).
Proof.
  induction l as [|x l IH]; intros Hbody; simpl.
  - apply appends_ret.
  - apply appends_bind; [apply Hbody; left|].
    intros _. apply IH. intros y Hy. apply Hbody. by right.
Qed.

Lemma appends_emit (e : event) : P e → appends P (emit e).
Proof.
  intros He w r w' [= _ <-]. exists [e]. split; [done|]. by constructor.
Qed.

Lemma appends_os_path_exists (path : string) : appends P (os_path_exists path).
Proof. apply appends_silent. by intros w r w' [= _ <-]. Qed.

Lemma appends_os_makedirs (path : string) : appends P (os_makedirs path).
Proof.
  apply appends_silent. intros w r w'. unfold os_makedirs.
  repeat case_match; by intros [= _ <-].
Qed.

Lemma appends_os_remove (path : string) : appends P (os_remove path).
Proof.
  apply appends_silent. intros w r w'. unfold os_remove.
  repeat case_match; by intros [= _ <-].
Qed.

Lemma appends_shutil_rmtree (path : string) : appends P (shutil_rmtree path).
Proof.
  apply appends_silent. intros w r w'. unfold shutil_rmtree.
  repeat case_match; by intros [= _ <-].
Qed.

Lemma appends_write_file (path : string) (c : content) :
  appends P (write_file path c).
Proof. apply appends_silent. by intros w r w' [= _ <-]. Qed.

Lemma appends_parse (path : string) : appends P (parse path).
Proof.
  apply appends_silent. intros w r w'. unfold parse.
  repeat case_match; by intros [= _ <-].
Qed.

Lemma appends_list_files (lib : gdal) (directory extension : string) :
  appends P (list_files lib directory extension).
Proof. apply appends_silent. by intros w r w' [= _ <-]. Qed.

Lemma appends_modify_vrt (vrt scale : string) : appends P (modify_vrt vrt scale).
Proof.
  unfold modify_vrt. apply appends_bind; [apply appends_parse|].
  intros root. repeat case_match;
    auto using appends_raise, appends_write_file.
  apply appends_bind; [apply appends_write_file|]. intros _.
  apply appends_raise.
Qed.

Lemma appends_get_metadata_item (lib : gdal) (subdataset keyword : string) :
  appends P (get_metadata_item lib subdataset keyword).
Proof.
  unfold get_metadata_item.
  repeat case_match; auto using appends_raise, appends_ret.
Qed.

Lemma appends_create_output_directory (hdf : string) :
  appends P (create_output_directory hdf).
Proof.
  unfold create_output_directory.
  apply appends_bind; [apply appends_os_path_exists|]. intros present.
  apply appends_bind; [|intros; apply appends_ret].
  destruct present; auto using appends_ret, appends_os_makedirs.
Qed.

Lemma appends_overwrite_step (DIRECTORY : string) (lib : gdal)
    (overwrite : bool) :
  appends P (overwrite_step DIRECTORY lib overwrite).
Proof.
  unfold overwrite_step. destruct overwrite; [|apply appends_ret].
  apply appends_bind; [apply appends_list_files|].
  intros [|f files]; auto using appends_ret, appends_os_remove.
Qed.

End trace.

Lemma appends_build_band (lib : gdal) (output_name source : string) :
  appends is_band_build (build_band lib output_name source).
Proof.
  unfold build_band, gdal_BuildVRT.
  apply appends_bind.
  - apply appends_bind; [by apply appends_emit|].
    intros _. case_match; auto using appends_ret, appends_write_file.
  - intros _. apply appends_bind; [apply appends_get_metadata_item|].
    intros scale. apply appends_modify_vrt.
Qed.

Lemma appends_convert_to_vrt (lib : gdal) (subdatasets : list (string * string))
    (data_dir : string) (bands : list Z) :
  appends is_band_build (convert_to_vrt lib subdatasets data_dir bands).
Proof.
  unfold convert_to_vrt. destruct bands as [|b bands].
  - apply appends_for_each. intros [order sub] _. apply appends_build_band.
  - apply appends_for_each. intros [order band] _. unfold convert_band.
    case_match; auto using appends_raise, appends_build_band.
Qed.





(** ** The dictionary of requested subdatasets *)

Lemma enumerate_fst {A} (start : nat) (l : list A) :
  (enumerate start l).*1 = seq start (length l).
Proof.
  unfold enumerate. rewrite fmap_imap.
  rewrite <-(list_fmap_id (seq start (length l))).
  apply (imap_seq l id start).
Qed.

Lemma elem_of_enumerate {A} (start : nat) (l : list A) (n : nat) (x : A) :
  (n, x) ∈ enumerate start l ↔ ∃ i, n = (start + i)%nat ∧ l !! i = Some x.
Proof.
  unfold enumerate. rewrite elem_of_lookup_imap. split.
  - intros (i & y & [= -> ->] & Hi). eauto.
  - intros (i & -> & Hi). eauto.
Qed.


Lemma band_dict_lookup (subdatasets : list (string * string)) (bands : list Z)
    (band : Z) (sub : string * string) :
  band_dict subdatasets bands !! band = Some sub ↔
  band ∈ bands ∧ ∃ i, band = Z.of_nat (S i) ∧ subdatasets !! i = Some sub.
Proof.
  unfold band_dict. rewrite <-elem_of_list_to_map.
  - rewrite list_elem_of_filter, list_elem_of_fmap. simpl. split.
    + intros (Hin & [n x] & [= -> ->] & Hx). split; [done|].
      apply elem_of_enumerate in Hx as (i & -> & Hi). eauto.
    + intros (Hin & i & -> & Hi). split; [done|].
      exists (S i, sub). split; [done|].
      apply elem_of_enumerate. eauto.
  - eapply sublist_NoDup; [|apply fmap_sublist, sublist_filter].
    rewrite <-list_fmap_compose.
    replace (fst ∘ prod_map Z.of_nat id) with (Z.of_nat ∘ @fst nat (string * string))
      by done.
    rewrite list_fmap_compose, enumerate_fst.
    apply NoDup_fmap_2; [apply _|apply NoDup_seq].
Qed.



(** ** The scale lookup *)

Lemma elem_of_keys (lib : gdal) (d : gmap string string) (k : string) :
  k ∈ keys lib d ↔ is_Some (d !! k).
Proof.
  unfold keys. rewrite (keys_order_all lib d), list_elem_of_fmap. split.
  - intros ([k' v] & -> & Hin%elem_of_map_to_list). by exists v.
  - intros [v Hk]. exists (k, v). split; [done|]. by apply elem_of_map_to_list.
Qed.

Lemma get_metadata_item_missing (lib : gdal) (subdataset keyword : string)
    (metadata : gmap string string) (w : world) :
  GetMetadata_Dict lib subdataset = Some metadata →
  (∀ k, is_Some (metadata !! k) → Py.contains keyword (Py.lower k) = false) →
  get_metadata_item lib subdataset keyword w = (Raise IndexError, w).
Proof.
  intros Hmeta Hnone. unfold get_metadata_item. rewrite Hmeta.
  replace (filter _ metadata) with (∅ : gmap string string).
  { destruct (keys lib ∅) as [|k l] eqn:Hkeys; [done|].
    assert (k ∈ keys lib ∅) as Hk by (rewrite Hkeys; left).
    apply elem_of_keys in Hk as [v Hk]. by rewrite lookup_empty in Hk. }
  symmetry. apply map_empty_filter. intros k v Hk. simpl.
  rewrite (Hnone k); [|by eexists]. by intros [].
Qed.

Lemma get_metadata_item_found (lib : gdal) (subdataset keyword : string)
    (metadata : gmap string string) :
  GetMetadata_Dict lib subdataset = Some metadata →
  (∃ k, is_Some (metadata !! k) ∧ Py.contains keyword (Py.lower k) = true) →
  ∃ k v,
    head (keys lib
            (filter (λ kv, Py.contains keyword (Py.lower kv.1)) metadata))
      = Some k
    ∧ metadata !! k = Some v
    ∧ Py.contains keyword (Py.lower k) = true
    ∧ ∀ w, get_metadata_item lib subdataset keyword w = (Ok v, w).
Proof.
  intros Hmeta (k0 & [v0 Hk0] & Hmatch0). unfold get_metadata_item.
  rewrite Hmeta.
  set (filtered_meta := filter _ metadata).
  assert (filtered_meta !! k0 = Some v0) as Hin.
  { apply map_lookup_filter_Some. split; [done|]. simpl. by rewrite Hmatch0. }
  destruct (keys lib filtered_meta) as [|k rest] eqn:Hlist.
  { assert (k0 ∈ keys lib filtered_meta) as Hk0' by (apply elem_of_keys; eauto).
    rewrite Hlist in Hk0'. by apply elem_of_nil in Hk0'. }
  assert (is_Some (filtered_meta !! k)) as [v Hk].
  { apply (elem_of_keys lib). rewrite Hlist. left. }
  exists k, v. simpl. rewrite Hk.
  apply map_lookup_filter_Some in Hk as [Hk Hmatch]. simpl in Hmatch.
  split_and!; [done|done| |done].
  by destruct (Py.contains keyword (Py.lower k)).
Qed.




(** C3 as stated fails: the third subdataset of [MOD13.hdf] has no key
    containing [scale], yet a run for bands 2 and 1 never looks it up and
    ends with an output TIFF. *)
Lemma scale_missing_in_unrequested_subdataset :
  GetSubDatasets Sample.lib "MOD13.hdf"
    = Some [(Sample.ndvi, "NDVI"); (Sample.evi, "EVI"); (Sample.quality, "QA")]
  ∧ GetMetadata_Dict Sample.lib Sample.quality = Some {[ "units" := "bits" ]}
  ∧ Py.contains "scale" (Py.lower "units") = false
  ∧ ∃ w', hdf2tif "/opt/geo" Sample.lib "MOD13.hdf" false [2; 1] true
            Sample.disk = (Ok "MOD13.tif", w')
          ∧ fs w' !! "MOD13.tif" = Some (File Bytes)
          ∧ last (calls w')
            = Some (SetMetadata "MOD13.tif" "['01:NDVI', '02:EVI', '03:QA']").
Proof.
  split_and!; [reflexivity..|].
  eexists. split_and!; vm_compute; reflexivity.
Qed.

(** ** Band indices out of range *)




(** C10 as stated fails: in this run band 7 is asked of a file with two
    subdatasets, and the run ends with the [OSError] of the overwrite
    step, which is no lookup error. *)
Lemma band_out_of_range_other_error :
  GetSubDatasets Sample.lib "pair.hdf"
    = Some [(Sample.ndvi, "NDVI"); (Sample.evi, "EVI")]
  ∧ Z.of_nat (length [(Sample.ndvi, "NDVI"); (Sample.evi, "EVI")]) < 7
  ∧ hdf2tif "/opt/geo" Sample.lib "pair.hdf" true [7] true
      Sample.tiff_directory
    = (Raise OSError, Sample.tiff_directory)
  ∧ is_LookupError OSError = false.
Proof. split_and!; [reflexivity|simpl; lia|reflexivity..]. Qed.

(** ** The phases of a run *)

Lemma hdf2tif_phases (DIRECTORY : string) (lib : gdal) (hdf : string)
    (overwrite : bool) (bands : list Z) (reproject : bool) (w : world) :
  hdf2tif DIRECTORY lib hdf overwrite bands reproject w
  = ('(subdatasets, data_dir) ← prepare DIRECTORY lib hdf overwrite bands;
     warp_step (vrt_output_of hdf) (output_tiff_of hdf) reproject ;;
     finish hdf subdatasets data_dir) w.
Proof.
  unfold hdf2tif, prepare, finish, mbind, M_bind, bind.
  destruct (overwrite_step DIRECTORY lib overwrite w) as [[[]|e] w1]; [|done].
  destruct (GetSubDatasets lib hdf) as [subdatasets|]; [|done].
  destruct (create_output_directory hdf w1) as [[d|e] w2]; [|done].
  destruct (convert_to_vrt lib subdatasets d bands w2) as [[[]|e] w3]; [|done].
  destruct (merge_step lib d (vrt_output_of hdf) w3) as [[[]|e] w4]; done.
Qed.

(** ** The warp step *)



(** ** Listing a directory *)

Lemma list_files_Ok (lib : gdal) (directory extension : string) (w : world) :
  ∃ files, list_files lib directory extension w = (Ok files, w).
Proof. by eexists. Qed.


(** ** The overwrite step *)





(** ** Taking a successful run apart *)

Lemma prepare_Ok (DIRECTORY : string) (lib : gdal) (hdf : string)
    (overwrite : bool) (bands : list Z)
    (subdatasets : list (string * string)) (data_dir : string) (w w4 : world) :
  prepare DIRECTORY lib hdf overwrite bands w = (Ok (subdatasets, data_dir), w4) →
  ∃ w1 w2 w3,
    overwrite_step DIRECTORY lib overwrite w = (Ok tt, w1)
    ∧ GetSubDatasets lib hdf = Some subdatasets
    ∧ create_output_directory hdf w1 = (Ok data_dir, w2)
    ∧ convert_to_vrt lib subdatasets data_dir bands w2 = (Ok tt, w3)
    ∧ merge_step lib data_dir (vrt_output_of hdf) w3 = (Ok tt, w4).
Proof.
  unfold prepare. intros Hrun.
  apply bind_Ok in Hrun as ([] & w1 & Hover & Hrun).
  destruct (GetSubDatasets lib hdf) as [subs|]; [|done].
  apply bind_Ok in Hrun as (d & w2 & Hdir & Hrun).
  apply bind_Ok in Hrun as ([] & w3 & Hconv & Hrun).
  apply bind_Ok in Hrun as ([] & w4' & Hmerge & Hrun).
  unfold ret in Hrun. simplify_eq. eauto 10.
Qed.

Lemma finish_Ok (hdf : string) (subdatasets : list (string * string))
    (data_dir p : string) (w w' : world) :
  finish hdf subdatasets data_dir w = (Ok p, w') →
  ∃ w1 w2,
    inject_metadata subdatasets (output_tiff_of hdf) w = (Ok tt, w1)
    ∧ os_remove (vrt_output_of hdf) w1 = (Ok tt, w2)
    ∧ shutil_rmtree data_dir w2 = (Ok tt, w')
    ∧ p = output_tiff_of hdf.
Proof.
  unfold finish, clear_temp_files. intros Hrun.
  apply bind_Ok in Hrun as ([] & w1 & Hinject & Hrun).
  apply bind_Ok in Hrun as ([] & w3 & Hclear & Hrun).
  apply bind_Ok in Hclear as ([] & w2 & Hremove & Hrmtree).
  unfold ret in Hrun. simplify_eq. eauto 10.
Qed.

Lemma hdf2tif_Ok (DIRECTORY : string) (lib : gdal) (hdf : string)
    (overwrite : bool) (bands : list Z) (reproject : bool) (p : string)
    (w w' : world) :
  hdf2tif DIRECTORY lib hdf overwrite bands reproject w = (Ok p, w') →
  ∃ subdatasets data_dir w1 w2,
    prepare DIRECTORY lib hdf overwrite bands w = (Ok (subdatasets, data_dir), w1)
    ∧ warp_step (vrt_output_of hdf) (output_tiff_of hdf) reproject w1 = (Ok tt, w2)
    ∧ finish hdf subdatasets data_dir w2 = (Ok p, w').
Proof.
  rewrite hdf2tif_phases. intros Hrun.
  apply bind_Ok in Hrun as ([subs d] & w1 & Hprepare & Hrun).
  apply bind_Ok in Hrun as ([] & w2 & Hwarp & Hrun).
  eauto 10.
Qed.

Lemma appends_impl {A} (P Q : event → Prop) (m : M A) :
  (∀ e, P e → Q e) → appends P m → appends Q m.
Proof.
  intros HPQ Hm w r w' Hrun. destruct (Hm _ _ _ Hrun) as (l & Hl & HP).
  exists l. split; [done|]. by eapply Forall_impl.
Qed.

Lemma appends_prepare_warp (DIRECTORY : string) (lib : gdal) (hdf : string)
    (overwrite : bool) (bands : list Z) (reproject : bool) :
  appends (λ e, ¬ is_metadata_call e)
    ('(subdatasets, data_dir) ← prepare DIRECTORY lib hdf overwrite bands;
     warp_step (vrt_output_of hdf) (output_tiff_of hdf) reproject).
Proof.
  apply appends_bind.
  - unfold prepare. apply appends_bind; [apply appends_overwrite_step|].
    intros _. case_match; [|apply appends_raise].
    apply appends_bind; [apply appends_create_output_directory|]. intros d.
    apply appends_bind.
    { eapply appends_impl; [|apply appends_convert_to_vrt].
      intros [] Hbuild; simpl in *; tauto. }
    intros _. apply appends_bind; [|intros; apply appends_ret].
    unfold merge_step. apply appends_bind; [apply appends_list_files|].
    intros files. unfold gdal_BuildVRT_list.
    apply appends_bind; [apply appends_emit; simpl; tauto|].
    intros _. apply appends_write_file.
  - intros [subs d]. unfold warp_step.
    apply appends_bind; [apply appends_os_path_exists|].
    intros []; [apply appends_ret|]. unfold gdal_Warp.
    apply appends_bind; [apply appends_emit; simpl; tauto|].
    intros _. apply appends_write_file.
Qed.

(** ** The band names *)

Lemma band_names_Some (index : nat) (subdatasets : list (string * string))
    (labels : list string) :
  band_names index subdatasets = Some labels ↔
  ∃ fragments,
    Forall2 (λ sub fragment, Py.split ":" sub.1 !! 4%nat = Some fragment)
      subdatasets fragments
    ∧ labels = imap (λ i, band_label (index + i)) fragments.
Proof.
  revert index labels.
  induction subdatasets as [|sub subs IH]; intros index labels; simpl.
  - split.
    + intros [= <-]. exists []. by split; [constructor|].
    + intros (fragments & Hall & ->). by inversion Hall.
  - destruct (Py.split ":" sub.1 !! 4%nat) as [fragment|] eqn:Hfield.
    + rewrite fmap_Some. setoid_rewrite IH. split.
      * intros (rest & (fragments & Hall & ->) & ->).
        exists (fragment :: fragments). split; [by constructor|].
        rewrite imap_cons, Nat.add_0_r. f_equal.
        apply imap_ext. intros i x _. simpl. f_equal. lia.
      * intros (fragments & Hall & ->).
        inversion Hall as [|? f ? fs' Hf Hrest]; simplify_eq.
        exists (imap (λ i, band_label (S index + i)) fs').
        split; [by exists fs'|].
        rewrite imap_cons, Nat.add_0_r. f_equal.
        apply imap_ext. intros i x _. simpl. f_equal. lia.
    + split; [done|]. intros (fragments & Hall & ->).
      inversion Hall; simplify_eq.
Qed.



(** ** More facts about strings *)

Module PathFacts.
Import Py PyFacts.

Lemma replace_from_empty (fuel : nat) (c : ascii) (old new : string) :
  replace_from fuel (String c old) new EmptyString = EmptyString.
Proof. by destruct fuel. Qed.

(** When no occurrence of [old] starts inside [s], even counting the copy
    of [old] that follows, replacing in [s ++ old] rewrites that copy
    only. *)
Lemma replace_from_last (fuel : nat) (c : ascii) (old new s : string) :
  (String.length s < fuel)%nat →
  (∀ t1 t2, s = t1 +:+ t2 → t2 ≠ EmptyString →
     strip_prefix (String c old) (t2 +:+ String c old) = None) →
  replace_from fuel (String c old) new (s +:+ String c old) = s +:+ new.
Proof.
  revert fuel. induction s as [|a s IH]; intros fuel Hfuel Hfree.
  - destruct fuel as [|fuel]; [simpl in Hfuel; lia|].
    rewrite !app_nil_l. cbn [replace_from].
    rewrite <-(app_nil_r (String c old)) at 2.
    rewrite strip_prefix_app, replace_from_empty. apply app_nil_r.
  - destruct fuel as [|fuel]; [simpl in Hfuel; lia|].
    cbn [replace_from].
    rewrite (Hfree EmptyString (String a s)) by done.
    rewrite !app_cons. f_equal. apply IH; [simpl in Hfuel; lia|].
    intros t1 t2 -> Ht2. by apply (Hfree (String a t1) t2).
Qed.

Lemma strip_prefix_shorter (c : ascii) (old s rest : string) :
  strip_prefix (String c old) s = Some rest →
  (String.length rest < String.length s)%nat.
Proof.
  intros ->%strip_prefix_Some. rewrite length_app. simpl. lia.
Qed.

(** The fuel that [replace] gives is enough: more fuel changes nothing. *)
Lemma replace_from_enough (n m : nat) (c : ascii) (old new s : string) :
  (String.length s < n)%nat → (String.length s < m)%nat →
  replace_from n (String c old) new s = replace_from m (String c old) new s.
Proof.
  revert m s. induction n as [|n IH]; intros [|m] s Hn Hm; [lia..|].
  cbn [replace_from].
  destruct (strip_prefix (String c old) s) as [rest|] eqn:Hstrip.
  - apply strip_prefix_shorter in Hstrip. f_equal. apply IH; lia.
  - destruct s as [|a s]; [done|]. simpl in Hn, Hm. f_equal. apply IH; lia.
Qed.

Lemma contains_false (sub s : string) :
  contains sub s = false ↔ ∀ t1 t2, s = t1 +:+ t2 → startswith t2 sub = false.
Proof.
  induction s as [|a s IH]; simpl.
  - rewrite orb_false_r. split.
    + intros Hs t1 t2 Ht. by destruct t1, t2.
    + intros Hs. by apply (Hs EmptyString EmptyString).
  - rewrite orb_false_iff, IH. split.
    + intros [Hhere Hrest] [|b t1] t2 Ht.
      * rewrite app_nil_l in Ht. by subst.
      * rewrite app_cons in Ht. injection Ht as -> ->. by eapply Hrest.
    + intros Hs. split.
      * by apply (Hs EmptyString).
      * intros t1 t2 ->. by apply (Hs (String a t1)).
Qed.

(** Replacing a dotted three-letter extension at the end of a string
    that does not contain it elsewhere. *)
Lemma replace_extension (stem new : string) (x y z : ascii) :
  x ≠ "."%char → y ≠ "."%char → z ≠ "."%char →
  let old := String "." (String x (String y (String z EmptyString))) in
  contains old stem = false →
  replace (stem +:+ old) old new = stem +:+ new.
Proof.
  intros Hx Hy Hz old Hfree. unfold replace, old.
  apply replace_from_last; [rewrite length_app; simpl; lia|].
  intros t1 t2 -> Ht2.
  pose proof (proj1 (contains_false _ _) Hfree t1 t2 eq_refl) as Hstart.
  apply startswith_false in Hstart. fold old. revert Hstart. unfold old.
  destruct t2 as [|c1 [|c2 [|c3 [|c4 t2]]]]; [done|..];
    rewrite ?app_cons, ?app_nil_l; simpl;
    repeat (case_decide; simplify_eq; try done).
Qed.

Lemma chars_app (a b : string) : chars (a +:+ b) = chars a ++ chars b.
Proof. induction a as [|x a IH]; [done|]. rewrite app_cons. simpl. by rewrite IH. Qed.

Lemma chars_inj (a b : string) : chars a = chars b → a = b.
Proof.
  intros Hab. rewrite <-(String.string_of_list_ascii_of_string a),
    <-(String.string_of_list_ascii_of_string b). by rewrite Hab.
Qed.

Lemma endswith_true (s suffix : string) :
  endswith s suffix = true ↔ ∃ t, s = t +:+ suffix.
Proof.
  induction s as [|a s IH]; simpl.
  - rewrite orb_false_r, bool_decide_eq_true. split.
    + intros <-. by exists EmptyString.
    + intros ([|b t] & Ht); [done|by rewrite app_cons in Ht].
  - rewrite orb_true_iff, bool_decide_eq_true, IH. split.
    + intros [<-|[t ->]]; [by exists EmptyString|by exists (String a t)].
    + intros ([|b t] & Ht); [by left|].
      rewrite app_cons in Ht. injection Ht as -> ->. right. by exists t.
Qed.

Lemma rsplit_at_Some (c : ascii) (s l r : string) :
  rsplit_at c s = Some (l, r) → s = l +:+ String c r ∧ c ∉ chars r.
Proof.
  revert l. induction s as [|a s IH]; intros l; simpl; [done|].
  destruct (rsplit_at c s) as [[l' r']|] eqn:Hs.
  - intros [= <- <-]. destruct (IH l' eq_refl) as [-> Hr]. by rewrite app_cons.
  - case_decide; [|done]. intros [= <- <-]. subst a. split; [done|].
    clear IH. revert Hs. induction s as [|b s IH]; simpl.
    + intros _. apply not_elem_of_nil.
    + destruct (rsplit_at c s) as [[??]|]; [done|].
      case_decide; [done|]. intros _. apply not_elem_of_cons. auto.
Qed.

Lemma rsplit_at_None (c : ascii) (s : string) :
  rsplit_at c s = None → c ∉ chars s.
Proof.
  induction s as [|b s IH]; simpl.
  - intros _. apply not_elem_of_nil.
  - destruct (rsplit_at c s) as [[??]|]; [done|].
    case_decide; [done|]. intros _. apply not_elem_of_cons. auto.
Qed.

Lemma lstrip_dots_spec (s d r : string) :
  lstrip_dots s = (d, r) → s = d +:+ r ∧ ∀ r', r ≠ String "." r'.
Proof.
  revert d. induction s as [|a s IH]; intros d; simpl.
  - by intros [= <- <-].
  - destruct (decide (a = "."%char)) as [->|Ha].
    + destruct (lstrip_dots s) as [d' r0]. intros [= <- <-].
      destruct (IH d' eq_refl) as [-> Hr]. by rewrite app_cons.
    + assert (lstrip_dots (String a s) = (EmptyString, String a s)) as Hnot.
      { simpl. by destruct a as [[] [] [] [] [] [] [] []]. }
      simpl in Hnot. rewrite Hnot. intros [= <- <-]. split; [done|].
      intros r' [= ? ?]. done.
Qed.

Lemma split_last_unique (x : ascii) (l1 l2 r1 r2 : list ascii) :
  l1 ++ x :: r1 = l2 ++ x :: r2 → x ∉ r1 → x ∉ r2 → l1 = l2 ∧ r1 = r2.
Proof.
  revert l2. induction l1 as [|a l1 IH]; intros [|b l2] Heq Hr1 Hr2;
    simplify_eq/=.
  - done.
  - destruct Hr1. apply elem_of_app. right. left.
  - destruct Hr2. apply elem_of_app. right. left.
  - destruct (IH l2) as [-> ->]; done.
Qed.

(** What [os.path.splitext] cuts off: nothing, or a last extension, and
    then the root is not empty and does not end with a slash. *)
Lemma splitext_root_cases (p : string) :
  splitext_root p = p
  ∨ ∃ e, p = splitext_root p +:+ String "." e
         ∧ ("."%char ∉ chars e)
         ∧ splitext_root p ≠ EmptyString
         ∧ endswith (splitext_root p) "/" = false.
Proof.
  unfold splitext_root.
  set (parts := match rsplit_at "/" p with
                | Some (h, b) => (h +:+ "/", b)
                | None => (EmptyString, p)
                end).
  assert (p = parts.1 +:+ parts.2 ∧ "/"%char ∉ chars parts.2) as [Hp Hbase].
  { unfold parts. destruct (rsplit_at "/" p) as [[h b]|] eqn:Hsplit; simpl.
    - apply rsplit_at_Some in Hsplit as [-> Hb]. by rewrite app_assoc.
    - split; [done|]. by apply rsplit_at_None. }
  destruct parts as [head base]. simpl in *.
  destruct (lstrip_dots base) as [dots rest] eqn:Hdots.
  apply lstrip_dots_spec in Hdots as [-> Hrest].
  destruct (rsplit_at "." rest) as [[stem e]|] eqn:Hext; [|by left].
  apply rsplit_at_Some in Hext as [-> He].
  right. exists e. split_and!; [|done| |].
  - by rewrite Hp, !app_assoc.
  - destruct stem as [|a stem]; [by edestruct Hrest|].
    intros Hempty. apply (f_equal chars) in Hempty.
    rewrite !chars_app in Hempty. simpl in Hempty.
    by destruct (chars head), (chars dots).
  - destruct stem as [|a stem]; [by edestruct Hrest|].
    apply not_true_is_false. intros [t Ht]%endswith_true.
    apply (f_equal chars) in Ht. rewrite !chars_app in Ht.
    rewrite !chars_app in Hbase. simpl in Hbase, Ht.
    assert (last (chars head ++ chars dots ++ a :: chars stem)
            = Some "/"%char) as Hlast.
    { rewrite Ht. apply last_snoc. }
    rewrite (assoc_L (++)), last_app_cons in Hlast.
    apply last_Some_elem_of in Hlast. destruct Hbase.
    apply elem_of_app. right. rewrite app_comm_cons.
    apply elem_of_app. by left.
Qed.

End PathFacts.

(** With a tame extension, whatever the directory, the search lists paths
    that end with the extension. *)
Lemma list_files_extension (lib : gdal) (directory extension : string)
    (w w' : world) (files : list string) (p : string) :
  tame_extension extension = true →
  list_files lib directory extension w = (Ok files, w') →
  p ∈ files → Py.endswith p ("." +:+ extension) = true.
Proof.
  intros Hext [= <- _]. rewrite Hext.
  destruct (tame directory); simpl.
  - rewrite (listing_order_all lib), list_elem_of_filter.
    intros [Hmatch _]. unfold glob_match in Hmatch.
    destruct (Py.strip_prefix _ p) as [name|] eqn:Hname; [|done].
    apply PyFacts.strip_prefix_Some in Hname as ->.
    apply Is_true_true, andb_true_iff in Hmatch as [_ Hend].
    apply PathFacts.endswith_true in Hend as [t ->].
    apply PathFacts.endswith_true. exists (dir_prefix directory +:+ t).
    by rewrite PyFacts.app_assoc.
  - rewrite list_elem_of_filter. intros [Hend _]. by apply Is_true_true.
Qed.

(** ** Decimal numerals and the names of the band files *)

Module NameFacts.
Import Py PyFacts PathFacts.

Lemma pretty_N_char_digit (x : N) : is_digit (pretty_N_char x) = true.
Proof. unfold pretty_N_char. by repeat case_match. Qed.

Lemma pretty_N_go_digits (x : N) (s : string) :
  Forall (λ c, is_digit c = true) (chars s) →
  Forall (λ c, is_digit c = true) (chars (pretty_N_go x s)).
Proof.
  revert s. induction (N.lt_wf_0 x) as [x _ IH]. intros s Hs.
  destruct (decide (x = 0%N)) as [->|Hx]; [by rewrite pretty_N_go_0|].
  rewrite pretty_N_go_step by lia. apply IH.
  - apply N.div_lt; lia.
  - simpl. constructor; [apply pretty_N_char_digit|done].
Qed.

Lemma str_nat_digits (n : nat) :
  Forall (λ c, is_digit c = true) (chars (str_nat n)).
Proof.
  unfold str_nat, pretty, pretty_nat, pretty, pretty_N.
  case_decide; [by repeat constructor|].
  apply pretty_N_go_digits. constructor.
Qed.


Lemma zeros_digits (n : nat) : Forall (λ c, is_digit c = true) (chars (zeros n)).
Proof. induction n; simpl; by constructor. Qed.

Lemma zfill_digits (width : nat) (s : string) :
  Forall (λ c, is_digit c = true) (chars s) →
  Forall (λ c, is_digit c = true) (chars (zfill width s)).
Proof.
  intros Hs. unfold zfill. destruct s as [|c s].
  - apply zeros_digits.
  - case_bool_decide as Hsign.
    + apply Forall_cons_1 in Hs as [Hc _]. by destruct Hsign as [->| ->].
    + rewrite chars_app. apply Forall_app. split; [apply zeros_digits|done].
Qed.

Lemma zfill_nonempty (s : string) : zfill 2 s ≠ EmptyString.
Proof.
  unfold zfill. destruct s as [|c [|c' s]]; simpl; [done|..];
    by case_bool_decide.
Qed.

(** A string of digits starts neither with a slash nor with a dot. *)
Lemma digits_head (s rest : string) (c : ascii) :
  Forall (λ c, is_digit c = true) (chars s) → s ≠ EmptyString →
  is_digit c = false →
  startswith (s +:+ rest) (String c EmptyString) = false.
Proof.
  intros Hs Hne Hc. destruct s as [|a s]; [done|].
  apply Forall_cons_1 in Hs as [Ha _].
  apply startswith_false. rewrite app_cons. simpl.
  case_decide as Hca; [|done]. subst. by rewrite Ha in Hc.
Qed.

Lemma band_vrt_name_head (order : nat) (band : Z) (name : string) (c : ascii) :
  is_digit c = false →
  startswith (band_vrt_name order band name) (String c EmptyString) = false.
Proof.
  intros Hc. unfold band_vrt_name.
  apply digits_head; [|apply zfill_nonempty|done].
  apply zfill_digits, str_nat_digits.
Qed.

Lemma plain_vrt_name_head (order : nat) (name : string) (c : ascii) :
  c ≠ "B"%char →
  startswith (plain_vrt_name order name) (String c EmptyString) = false.
Proof.
  intros Hc. unfold plain_vrt_name. apply startswith_false.
  rewrite app_cons. simpl. case_decide; [by subst|done].
Qed.

(** [os.path.join] with a name that does not start with a slash. *)
Lemma join_relative (directory name : string) :
  startswith name "/" = false →
  join directory name = dir_prefix directory +:+ name.
Proof.
  intros Hname. unfold dir_prefix, join. rewrite Hname.
  assert (startswith EmptyString "/" = false) as -> by done.
  destruct (bool_decide (directory = EmptyString) || endswith directory "/").
  - by rewrite app_nil_r.
  - by rewrite app_nil_r, app_assoc.
Qed.

Lemma inside_join (directory name : string) :
  startswith name "/" = false → inside directory (join directory name) = true.
Proof.
  intros Hname. rewrite join_relative by done. unfold inside.
  apply startswith_true. by eexists.
Qed.

End NameFacts.

(** ** What a computation adds to the file system *)

Section frame.
Context {S : string → Prop}.

Lemma creates_shrink {A} (m : M A) :
  (∀ w r w', m w = (r, w') →
     ∀ q, is_Some (fs w' !! q) → is_Some (fs w !! q)) →
  creates S m.
Proof. intros Hm w r w' Hrun q Hq. left. eauto. Qed.

Lemma creates_silent {A} (m : M A) :
  (∀ w r w', m w = (r, w') → fs w' = fs w) → creates S m.
Proof.
  intros Hm. apply creates_shrink. intros w r w' Hrun q.
  by rewrite (Hm _ _ _ Hrun).
Qed.

Lemma creates_ret {A} (a : A) : creates S (ret a).
Proof. apply creates_silent. by intros w r w' [= _ <-]. Qed.

Lemma creates_raise {A} (e : exn) : creates S (raise (A := A) e).
Proof. apply creates_silent. by intros w r w' [= _ <-]. Qed.

Lemma creates_bind {A B} (m : M A) (k : A → M B) :
  creates S m → (∀ a w w', m w = (Ok a, w') → creates S (k a)) →
  creates S (m ≫= k).
Proof.
  intros Hm Hk w r w' Hrun q Hq. unfold mbind, M_bind, bind in Hrun.
  destruct (m w) as [[a|e] w1] eqn:Hmw.
  - destruct (Hk a _ _ Hmw _ _ _ Hrun q Hq) as [Hq1|?]; [|by right].
    by apply (Hm _ _ _ Hmw).
  - simplify_eq. by apply (Hm _ _ _ Hmw).
Qed.

Lemma creates_for_each {A} (l : list A) (body : A → M unit) :
  (∀ x, x ∈ l → creates S (body x)) → creates S (for_each l body).
Proof.
  induction l as [|x l IH]; intros Hbody; simpl.
  - apply creates_ret.
  - apply creates_bind; [apply Hbody; left|].
    intros _ _ _ _. apply IH. intros y Hy. apply Hbody. by right.
Qed.

Lemma creates_emit (e : event) : creates S (emit e).
Proof. apply creates_silent. by intros w r w' [= _ <-]. Qed.

Lemma creates_os_path_exists (path : string) : creates S (os_path_exists path).
Proof. apply creates_silent. by intros w r w' [= _ <-]. Qed.

Lemma creates_parse (path : string) : creates S (parse path).
Proof.
  apply creates_silent. intros w r w'. unfold parse.
  repeat case_match; by intros [= _ <-].
Qed.

Lemma creates_list_files (lib : gdal) (directory extension : string) :
  creates S (list_files lib directory extension).
Proof. apply creates_silent. by intros w r w' [= _ <-]. Qed.

Lemma creates_write_file (path : string) (c : content) :
  S path → creates S (write_file path c).
Proof.
  intros Hpath w r w' [= _ <-] q. simpl.
  destruct (decide (path = q)) as [<-|Hne]; [by right|].
  rewrite lookup_insert_ne by done. by left.
Qed.

Lemma creates_os_makedirs (path : string) : S path → creates S (os_makedirs path).
Proof.
  intros Hpath w r w'. unfold os_makedirs.
  repeat case_match; intros [= _ <-] q; simpl; try by left.
  destruct (decide (path = q)) as [<-|Hne]; [by right|].
  rewrite lookup_insert_ne by done. by left.
Qed.

Lemma creates_os_remove (path : string) : creates S (os_remove path).
Proof.
  apply creates_shrink. intros w r w'. unfold os_remove.
  repeat case_match; intros [= _ <-] q; simpl; try done.
  intros [x Hx]. apply lookup_delete_Some in Hx as [_ Hx]. by eexists.
Qed.


Lemma creates_modify_vrt (vrt scale : string) :
  S vrt → creates S (modify_vrt vrt scale).
Proof.
  intros Hvrt. unfold modify_vrt.
  apply creates_bind; [apply creates_parse|]. intros root _ _ _.
  repeat case_match; auto using creates_raise, creates_write_file.
  apply creates_bind; [by apply creates_write_file|]. intros _ _ _ _.
  apply creates_raise.
Qed.

Lemma creates_get_metadata_item (lib : gdal) (subdataset keyword : string) :
  creates S (get_metadata_item lib subdataset keyword).
Proof.
  unfold get_metadata_item.
  repeat case_match; auto using creates_raise, creates_ret.
Qed.

Lemma creates_build_band (lib : gdal) (output_name source : string) :
  S output_name → creates S (build_band lib output_name source).
Proof.
  intros Hname. unfold build_band, gdal_BuildVRT.
  apply creates_bind.
  - apply creates_bind; [apply creates_emit|]. intros _ _ _ _.
    case_match; auto using creates_ret, creates_write_file.
  - intros _ _ _ _. apply creates_bind; [apply creates_get_metadata_item|].
    intros scale _ _ _. by apply creates_modify_vrt.
Qed.

Lemma creates_overwrite_step (DIRECTORY : string) (lib : gdal)
    (overwrite : bool) :
  creates S (overwrite_step DIRECTORY lib overwrite).
Proof.
  unfold overwrite_step. destruct overwrite; [|apply creates_ret].
  apply creates_bind; [apply creates_list_files|].
  intros [|f files] _ _ _; auto using creates_ret, creates_os_remove.
Qed.

End frame.


Lemma creates_convert_to_vrt (lib : gdal) (subdatasets : list (string * string))
    (data_dir : string) (bands : list Z) :
  creates (λ q, inside data_dir q = true)
    (convert_to_vrt lib subdatasets data_dir bands).
Proof.
  unfold convert_to_vrt. destruct bands as [|b bands].
  - apply creates_for_each. intros [order sub] _. unfold convert_plain.
    apply creates_build_band, NameFacts.inside_join.
    by apply NameFacts.plain_vrt_name_head.
  - apply creates_for_each. intros [order band] _. unfold convert_band.
    case_match; [|apply creates_raise].
    apply creates_build_band, NameFacts.inside_join.
    by apply NameFacts.band_vrt_name_head.
Qed.

Lemma create_output_directory_Ok (hdf data_dir : string) (w w' : world) :
  create_output_directory hdf w = (Ok data_dir, w') →
  data_dir = Py.splitext_root hdf
  ∧ ∀ q, is_Some (fs w' !! q) → is_Some (fs w !! q) ∨ q = data_dir.
Proof.
  unfold create_output_directory. intros Hrun.
  apply bind_Ok in Hrun as (present & w1 & Hexists & Hrun).
  apply bind_Ok in Hrun as ([] & w2 & Hmake & Hrun).
  unfold ret in Hrun. simplify_eq. split; [done|].
  injection Hexists as <- <-. intros q Hq.
  destruct (bool_decide _).
  - unfold ret in Hmake. simplify_eq. by left.
  - eapply (creates_os_makedirs (S := λ q, q = Py.splitext_root hdf)); eauto.
Qed.

Lemma creates_merge_step (lib : gdal) (DIRECTORY' vrt_output : string) :
  creates (λ q, q = vrt_output) (merge_step lib DIRECTORY' vrt_output).
Proof.
  unfold merge_step. apply creates_bind; [apply creates_list_files|].
  intros files _ _ _. unfold gdal_BuildVRT_list.
  apply creates_bind; [apply creates_emit|]. intros _ _ _ _.
  by apply creates_write_file.
Qed.

Lemma creates_warp_step (vrt_output output_tiff : string) (reproject : bool) :
  creates (λ q, q = output_tiff) (warp_step vrt_output output_tiff reproject).
Proof.
  unfold warp_step. apply creates_bind; [apply creates_os_path_exists|].
  intros [] _ _ _; [apply creates_ret|]. unfold gdal_Warp.
  apply creates_bind; [apply creates_emit|]. intros _ _ _ _.
  by apply creates_write_file.
Qed.

(** The entries a run holds when its last phase starts are those it
    started with, the working directory and what lies inside it, the
    merged VRT and the output. *)
Lemma prepare_warp_creates (DIRECTORY : string) (lib : gdal) (hdf : string)
    (overwrite : bool) (bands : list Z) (reproject : bool)
    (subdatasets : list (string * string)) (data_dir : string)
    (w w1 w2 : world) :
  prepare DIRECTORY lib hdf overwrite bands w = (Ok (subdatasets, data_dir), w1) →
  warp_step (vrt_output_of hdf) (output_tiff_of hdf) reproject w1 = (Ok tt, w2) →
  data_dir = Py.splitext_root hdf
  ∧ ∀ q, is_Some (fs w2 !! q) →
      is_Some (fs w !! q) ∨ q = data_dir ∨ inside data_dir q = true
      ∨ q = vrt_output_of hdf ∨ q = output_tiff_of hdf.
Proof.
  intros Hprepare Hwarp.
  apply prepare_Ok in Hprepare
    as (wa & wb & wc & Hover & Hsubs & Hdir & Hconv & Hmerge).
  apply create_output_directory_Ok in Hdir as [Hd Hdir]. split; [done|].
  intros q Hq.
  destruct (creates_warp_step _ _ _ _ _ _ Hwarp q Hq) as [Hq1|?]; [|tauto].
  destruct (creates_merge_step _ _ _ _ _ _ Hmerge q Hq1) as [Hqc|?]; [|tauto].
  destruct (creates_convert_to_vrt _ _ _ _ _ _ _ Hconv q Hqc) as [Hqb|?];
    [|tauto].
  destruct (Hdir q Hqb) as [Hqa|?]; [|tauto].
  destruct (creates_overwrite_step (S := λ _, False) _ _ _ _ _ _ Hover q Hqa);
    tauto.
Qed.

(** ** The paths of the merged VRT and of the output *)

Lemma output_paths_of_stem (stem : string) :
  Py.contains ".hdf" stem = false → Py.contains ".vrt" stem = false →
  vrt_output_of (stem +:+ ".hdf") = stem +:+ ".vrt"
  ∧ output_tiff_of (stem +:+ ".hdf") = stem +:+ ".tif".
Proof.
  intros Hhdf Hvrt. unfold output_tiff_of, vrt_output_of.
  rewrite (PathFacts.replace_extension stem ".vrt" "h" "d" "f") by done.
  split; [done|].
  by rewrite (PathFacts.replace_extension stem ".tif" "v" "r" "t").
Qed.

Lemma strip_prefix_common (a b c : string) :
  Py.strip_prefix (a +:+ b) (a +:+ c) = Py.strip_prefix b c.
Proof.
  induction a as [|x a IH]; [done|].
  rewrite !PyFacts.app_cons. simpl. by rewrite decide_True.
Qed.

(** The output of [stem.hdf] is neither the working directory nor inside
    it. *)
Lemma output_outside_data_dir (stem : string) :
  let data_dir := Py.splitext_root (stem +:+ ".hdf") in
  data_dir ≠ stem +:+ ".tif" ∧ inside data_dir (stem +:+ ".tif") = false.
Proof.
  cbv zeta.
  assert (∀ ext, ext ≠ EmptyString → stem ≠ stem +:+ ext) as Hlonger.
  { intros ext Hext Heq. apply (f_equal String.length) in Heq.
    rewrite PyFacts.length_app in Heq. destruct ext; [done|]. simpl in Heq. lia. }
  destruct (PathFacts.splitext_root_cases (stem +:+ ".hdf"))
    as [Hsame|(e & Hsplit & He & Hne & Hslash)].
  - rewrite Hsame. split.
    + intros Heq. by apply (inj (String.app stem)) in Heq.
    + unfold inside, dir_prefix, Py.join.
      assert (Py.startswith EmptyString "/" = false) as -> by done.
      rewrite bool_decide_eq_false_2 by (by destruct stem).
      replace (Py.endswith (stem +:+ ".hdf") "/") with false.
      2:{ symmetry. apply not_true_is_false.
          intros [t Ht]%PathFacts.endswith_true.
          apply (f_equal chars) in Ht.
          rewrite !PathFacts.chars_app in Ht. simpl in Ht.
          apply (f_equal last) in Ht.
          rewrite last_snoc in Ht.
          change [?a; ?b; ?c; ?d] with ([a; b; c] ++ [d]) in Ht.
          by rewrite (assoc_L (++)), last_snoc in Ht. }
      simpl. apply PyFacts.startswith_false.
      rewrite !PyFacts.app_assoc, strip_prefix_common. done.
  - set (data_dir := Py.splitext_root (stem +:+ ".hdf")) in *.
    assert (data_dir = stem) as Hd.
    { apply PathFacts.chars_inj.
      apply (f_equal chars) in Hsplit.
      rewrite !PathFacts.chars_app in Hsplit. simpl in Hsplit.
      destruct (PathFacts.split_last_unique "." _ _ _ _ Hsplit)
        as [Hroot _]; [|done..].
      rewrite !elem_of_cons, elem_of_nil. by intros [|[|[|]]]. }
    rewrite Hd in *. split; [by apply Hlonger|].
    unfold inside, dir_prefix, Py.join.
    assert (Py.startswith EmptyString "/" = false) as -> by done.
    rewrite bool_decide_eq_false_2, Hslash by done. simpl.
    apply PyFacts.startswith_false.
    rewrite PyFacts.app_nil_r, strip_prefix_common. done.
Qed.

(** ** The last phase *)

Lemma finish_fs (hdf : string) (subdatasets : list (string * string))
    (data_dir p : string) (w w' : world) :
  finish hdf subdatasets data_dir w = (Ok p, w') →
  p = output_tiff_of hdf
  ∧ (∃ c, fs w !! output_tiff_of hdf = Some (File c))
  ∧ fs w' = filter (λ kv, ¬ inside data_dir kv.1)
              (delete data_dir (delete (vrt_output_of hdf) (fs w))).
Proof.
  intros Hrun.
  apply finish_Ok in Hrun as (w1 & w2 & Hinject & Hremove & Hrmtree & ->).
  split; [done|].
  unfold inject_metadata in Hinject.
  destruct (band_names 0 subdatasets) as [labels|]; [|done].
  unfold gdal_SetMetadata in Hinject.
  destruct (fs w !! output_tiff_of hdf) as [[|c]|] eqn:Hout; [done| |done].
  injection Hinject as <-. split; [by eexists|].
  unfold os_remove in Hremove. simpl in Hremove.
  destruct (fs w !! vrt_output_of hdf) as [[|c']|]; [done| |done].
  injection Hremove as <-.
  unfold shutil_rmtree in Hrmtree. simpl in Hrmtree.
  destruct (delete (vrt_output_of hdf) (fs w) !! data_dir) as [[|c'']|];
    [|done..].
  by injection Hrmtree as <-.
Qed.

Lemma finish_lookup (hdf : string) (subdatasets : list (string * string))
    (data_dir p q : string) (x : node) (w w' : world) :
  finish hdf subdatasets data_dir w = (Ok p, w') →
  fs w' !! q = Some x ↔
  fs w !! q = Some x ∧ q ≠ vrt_output_of hdf ∧ q ≠ data_dir
  ∧ inside data_dir q = false.
Proof.
  intros Hrun. apply finish_fs in Hrun as (_ & _ & ->).
  rewrite map_lookup_filter_Some, !lookup_delete_Some. simpl. split.
  - intros ((Hd & Hv & Hx) & Hin). split_and!; [done..|].
    by destruct (inside data_dir q).
  - intros (Hx & Hv & Hd & Hin). rewrite Hin. split_and!; [done..|].
    by intros [].
Qed.

(** The output of a completed run on [stem.hdf] is a file at
    [stem.tif]. *)
Lemma output_survives (DIRECTORY : string) (lib : gdal) (stem : string)
    (overwrite : bool) (bands : list Z) (reproject : bool) (p : string)
    (w w' : world) :
  Py.contains ".hdf" stem = false → Py.contains ".vrt" stem = false →
  hdf2tif DIRECTORY lib (stem +:+ ".hdf") overwrite bands reproject w
    = (Ok p, w') →
  p = stem +:+ ".tif" ∧ ∃ c, fs w' !! p = Some (File c).
Proof.
  intros Hhdf Hvrt Hrun.
  destruct (output_paths_of_stem stem Hhdf Hvrt) as [Hvrt_path Htif_path].
  apply hdf2tif_Ok in Hrun as (subs & d & w1 & w2 & Hprepare & Hwarp & Hfinish).
  apply prepare_Ok in Hprepare as (? & ? & ? & _ & _ & Hdir & _).
  apply create_output_directory_Ok in Hdir as [-> _].
  pose proof (finish_fs _ _ _ _ _ _ Hfinish) as (-> & [c Hc] & _).
  rewrite Htif_path in *. split; [done|]. exists c.
  apply (finish_lookup _ _ _ _ _ _ _ _ Hfinish).
  destruct (output_outside_data_dir stem) as [Hne Hout].
  split_and!; [done| |done|done].
  rewrite Hvrt_path. intros Heq. by apply (inj (String.app stem)) in Heq.
Qed.

(** ** Where the output goes *)

(** C8, amended.  For an input path that is a stem followed by [.hdf],
    where the stem contains neither [.hdf] nor [.vrt], the merged VRT is
    the stem with [.vrt], distinct from the input path, and the output is
    the stem with [.tif], beside the input; a run that completes returns
    that path and leaves a file there. *)
Theorem output_beside_input (stem : string) :
  Py.contains ".hdf" stem = false → Py.contains ".vrt" stem = false →
  let hdf := stem +:+ ".hdf" in
  vrt_output_of hdf = stem +:+ ".vrt"
  ∧ output_tiff_of hdf = stem +:+ ".tif"
  ∧ vrt_output_of hdf ≠ hdf
  ∧ ∀ DIRECTORY lib overwrite bands reproject w p w',
      hdf2tif DIRECTORY lib hdf overwrite bands reproject w = (Ok p, w') →
      p = stem +:+ ".tif" ∧ ∃ c, fs w' !! p = Some (File c).
Proof.
  intros Hhdf Hvrt hdf.
  destruct (output_paths_of_stem stem Hhdf Hvrt) as [Hvrt_path Htif_path].
  subst hdf. split_and!; [done|done| |].
  - rewrite Hvrt_path. intros Heq. by apply (inj (String.app stem)) in Heq.
  - intros DIRECTORY lib overwrite bands reproject w p w' Hrun.
    by eapply output_survives.
Qed.

Lemma output_beside_input_witness :
  vrt_output_of "/data/pair.hdf" = "/data/pair.vrt"
  ∧ output_tiff_of "/data/pair.hdf" = "/data/pair.tif"
  ∧ vrt_output_of "/data/pair.hdf" ≠ "/data/pair.hdf"
  ∧ ∀ DIRECTORY lib overwrite bands reproject w p w',
      hdf2tif DIRECTORY lib "/data/pair.hdf" overwrite bands reproject w
        = (Ok p, w') →
      p = "/data/pair.tif" ∧ ∃ c, fs w' !! p = Some (File c).
Proof.
  apply (output_beside_input "/data/pair"); reflexivity.
Defined.

(** C8 as stated fails: for the input path [MOD09.HDF] the merged VRT path
    and the output path are both the input path itself, so the output has
    no [.tif] extension, and the run returns the input path. *)
Lemma output_path_of_upper_case_input :
  vrt_output_of "MOD09.HDF" = "MOD09.HDF"
  ∧ output_tiff_of "MOD09.HDF" = "MOD09.HDF"
  ∧ Py.endswith (output_tiff_of "MOD09.HDF") ".tif" = false
  ∧ (hdf2tif "/opt/geo" Sample.lib "MOD09.HDF" true [] true Sample.disk).1
    = Ok "MOD09.HDF".
Proof. split_and!; vm_compute; reflexivity. Qed.

(** ** Cleaning up *)

(** C9, amended.  After a run that completes, the merged VRT, the working
    directory and everything inside it do not exist, and an entry that
    exists and did not exist before the run is at the output path.  When
    the input path is a stem followed by [.hdf] and the stem contains
    neither [.hdf] nor [.vrt], the output is there, as a file. *)
Theorem temporaries_removed (DIRECTORY : string) (lib : gdal) (hdf : string)
    (overwrite : bool) (bands : list Z) (reproject : bool) (p : string)
    (w w' : world) :
  hdf2tif DIRECTORY lib hdf overwrite bands reproject w = (Ok p, w') →
  let data_dir := Py.splitext_root hdf in
  fs w' !! vrt_output_of hdf = None
  ∧ fs w' !! data_dir = None
  ∧ (∀ q, inside data_dir q = true → fs w' !! q = None)
  ∧ (∀ q, is_Some (fs w' !! q) → is_Some (fs w !! q) ∨ q = output_tiff_of hdf)
  ∧ (∀ stem, hdf = stem +:+ ".hdf" →
       Py.contains ".hdf" stem = false → Py.contains ".vrt" stem = false →
       ∃ c, fs w' !! (stem +:+ ".tif") = Some (File c)).
Proof.
  intros Hrun data_dir.
  pose proof Hrun as Hparts.
  apply hdf2tif_Ok in Hparts
    as (subs & d & w1 & w2 & Hprepare & Hwarp & Hfinish).
  destruct (prepare_warp_creates _ _ _ _ _ _ _ _ _ _ _ Hprepare Hwarp)
    as [Hd Hcreated].
  fold data_dir in Hd. subst d.
  split_and!.
  - apply eq_None_not_Some. intros [x Hx].
    apply (finish_lookup _ _ _ _ _ _ _ _ Hfinish) in Hx. by destruct Hx as (_ & ? & _).
  - apply eq_None_not_Some. intros [x Hx].
    apply (finish_lookup _ _ _ _ _ _ _ _ Hfinish) in Hx.
    by destruct Hx as (_ & _ & ? & _).
  - intros q Hq. apply eq_None_not_Some. intros [x Hx].
    apply (finish_lookup _ _ _ _ _ _ _ _ Hfinish) in Hx.
    destruct Hx as (_ & _ & _ & Hout). congruence.
  - intros q [x Hx].
    apply (finish_lookup _ _ _ _ _ _ _ _ Hfinish) in Hx.
    destruct Hx as (Hx & Hvrt & Hdir & Hout).
    destruct (Hcreated q) as [?|[?|[?|[?|?]]]]; [by eexists|auto..|];
      [done|congruence|done|auto].
  - intros stem -> Hhdf Hvrt.
    destruct (output_survives _ _ _ _ _ _ _ _ _ Hhdf Hvrt Hrun) as [-> ?].
    done.
Qed.

Lemma temporaries_removed_witness :
  let w' := (hdf2tif "/opt/geo" Sample.lib "pair.hdf" true [2; 1] true
               Sample.disk).2 in
  fs w' !! "pair.vrt" = None
  ∧ fs w' !! "pair" = None
  ∧ (∀ q, inside "pair" q = true → fs w' !! q = None)
  ∧ (∀ q, is_Some (fs w' !! q) →
       is_Some (fs Sample.disk !! q) ∨ q = "pair.tif")
  ∧ (∀ stem, "pair.hdf" = stem +:+ ".hdf" →
       Py.contains ".hdf" stem = false → Py.contains ".vrt" stem = false →
       ∃ c, fs w' !! (stem +:+ ".tif") = Some (File c)).
Proof.
  intros w'.
  apply (temporaries_removed "/opt/geo" Sample.lib "pair.hdf" true [2; 1] true
           "pair.tif" Sample.disk w').
  vm_compute. reflexivity.
Defined.

(** C9 as stated fails: the run on [MOD09.HDF] completes and returns its
    output path, but no file is there afterwards: the final TIFF does not
    remain (the path was also the merged VRT's, which the cleanup
    deletes). *)
Lemma output_deleted_with_merged_vrt :
  ∃ w',
    hdf2tif "/opt/geo" Sample.lib "MOD09.HDF" true [] true Sample.disk
      = (Ok "MOD09.HDF", w')
    ∧ vrt_output_of "MOD09.HDF" = output_tiff_of "MOD09.HDF"
    ∧ fs w' !! "MOD09.HDF" = None.
Proof.
  eexists. split_and!; [vm_compute; reflexivity|reflexivity|].
  vm_compute. reflexivity.
Qed.

(** ** The single-band builds of a run *)

Lemma build_band_Ok (lib : gdal) (output_name source : string) (w w' : world) :
  build_band lib output_name source w = (Ok tt, w') →
  ∃ c,
    w' = mkWorld (<[output_name := File c]> (fs w))
                 (calls w ++ [BuildVRT output_name source]).
Proof.
  unfold build_band. intros Hrun.
  apply bind_Ok in Hrun as ([] & w1 & Hbuild & Hrun).
  apply bind_Ok in Hrun as (scale & w2 & Hscale & Hmodify).
  assert (w2 = w1) as ->.
  { revert Hscale. unfold get_metadata_item.
    repeat case_match; by intros [= _ <-]. }
  assert (calls w1 = calls w ++ [BuildVRT output_name source]
          ∧ ∀ x, <[output_name := x]> (fs w1) = <[output_name := x]> (fs w))
    as [Hcalls Hfs].
  { unfold gdal_BuildVRT in Hbuild.
    apply bind_Ok in Hbuild as ([] & w0 & Hemit & Hwrite).
    injection Hemit as <-. destruct (vrt_document lib source).
    - injection Hwrite as <-. simpl. split; [done|].
      intros x. apply insert_insert_eq.
    - by injection Hwrite as <-. }
  unfold modify_vrt in Hmodify.
  apply bind_Ok in Hmodify as (root & w3 & Hparse & Hmodify).
  assert (w3 = w1) as ->.
  { revert Hparse. unfold parse. repeat case_match; by intros [= _ <-]. }
  repeat case_match; try done;
    injection Hmodify as <-; eexists; by rewrite Hfs, Hcalls.
Qed.


(** A loop whose turns each build one target or raise: when it completes,
    every turn had a target, the trace has grown by the builds in loop
    order, and the files are those there were plus the targets. *)
Lemma for_each_build_Ok {A} (lib : gdal) (target : A → option (string * string))
    (body : A → M unit) (l : list A) (w w' : world) :
  (∀ x w1 w2, body x w1 = (Ok tt, w2) →
     ∃ t, target x = Some t ∧ build_band lib t.1 t.2 w1 = (Ok tt, w2)) →
  for_each l body w = (Ok tt, w') →
  ∃ targets,
    Forall2 (λ x t, target x = Some t) l targets
    ∧ calls w' = calls w ++ (build_call <$> targets)
    ∧ (∀ q, is_Some (fs w' !! q) ↔ is_Some (fs w !! q) ∨ q ∈ targets.*1).
Proof.
  intros Hbody. revert w. induction l as [|x l IH]; intros w Hrun.
  - injection Hrun as <-. exists []. split_and!; [constructor| |].
    + by rewrite app_nil_r.
    + intros q. rewrite elem_of_nil. tauto.
  - simpl in Hrun. apply bind_Ok in Hrun as ([] & w1 & Hx & Hrest).
    destruct (Hbody _ _ _ Hx) as (t & Ht & Hbuild).
    apply build_band_Ok in Hbuild as [root ->].
    destruct (IH _ Hrest) as (targets & Hall & Hcalls & Hfs).
    exists (t :: targets). split_and!; [by constructor| |].
    + rewrite Hcalls. simpl. by rewrite <-(assoc_L (++)).
    + intros q. rewrite Hfs. simpl. rewrite elem_of_cons.
      destruct (decide (t.1 = q)) as [<-|Hne].
      * rewrite lookup_insert_eq. split; [auto|]. intros _. left. by eexists.
      * rewrite lookup_insert_ne by done. split; [tauto|].
        intros [?|[?|?]]; [tauto|congruence|tauto].
Qed.

Lemma Forall2_omap {A B} (f : A → option B) (l : list A) (k : list B) :
  Forall2 (λ x y, f x = Some y) l k → omap f l = k.
Proof.
  induction 1 as [|x y l k Hxy _ IH]; [done|]. csimpl. by rewrite Hxy, IH.
Qed.

Lemma convert_to_vrt_Ok (lib : gdal) (subdatasets : list (string * string))
    (data_dir : string) (bands : list Z) (w w' : world) :
  convert_to_vrt lib subdatasets data_dir bands w = (Ok tt, w') →
  let targets := band_targets subdatasets data_dir bands in
  calls w' = calls w ++ (build_call <$> targets)
  ∧ (∀ q, is_Some (fs w' !! q) ↔ is_Some (fs w !! q) ∨ q ∈ targets.*1)
  ∧ length targets
    = match bands with [] => length subdatasets | _ => length bands end
  ∧ (bands ≠ [] →
     Forall2 (λ x t, band_target (band_dict subdatasets bands) data_dir x = Some t)
       (enumerate 1 bands) targets).
Proof.
  unfold convert_to_vrt, band_targets. destruct bands as [|b bands]; intros Hrun.
  - apply (for_each_build_Ok lib (λ x, Some (plain_target data_dir x)))
      in Hrun as (targets & Hall & Hcalls & Hfs).
    + assert (targets = plain_target data_dir <$> enumerate 1 subdatasets) as <-.
      { clear -Hall. induction Hall; simplify_eq/=; by f_equal. }
      split_and!; [done..| |done].
      apply Forall2_length in Hall. rewrite <-Hall.
      unfold enumerate. by rewrite length_imap.
    + intros [order sub] w1 w2 Hbody. eexists. split; [done|]. exact Hbody.
  - apply (for_each_build_Ok lib
             (band_target (band_dict subdatasets (b :: bands)) data_dir))
      in Hrun as (targets & Hall & Hcalls & Hfs).
    + rewrite (Forall2_omap _ _ _ Hall). split_and!; [done..| |done].
      apply Forall2_length in Hall. rewrite <-Hall.
      unfold enumerate. by rewrite length_imap.
    + intros [order band] w1 w2. unfold convert_band, band_target.
      destruct (band_dict subdatasets (b :: bands) !! band) as [sub|]; [|done].
      intros Hbody. eexists. split; [done|]. exact Hbody.
Qed.

(** ** The order of the file names *)

Module OrderFacts.
Import Py PyFacts PathFacts.












End OrderFacts.

(** ** The band files and the directory search *)

Module GlobFacts.
Import Py PyFacts PathFacts NameFacts OrderFacts.







End GlobFacts.

(** ** The merge step *)

Section merge.
Import Py PyFacts PathFacts NameFacts OrderFacts GlobFacts.






End merge.



(** ** The names of the band files *)

(** C6, at the input where the code departs from it.  For the subdataset
    [HDF4_EOS:EOS_GRID:MOD13.hdf:grid:NDVI], asked for as band 1, the VRT
    is named by sequence number, band number and the part of the name after
    the last colon.  Without a band list the name takes the whole
    subdataset name, not that part. *)
Theorem plain_branch_keeps_whole_name :
  (band_targets [(Sample.ndvi, "NDVI")] "MOD13" [1]).*1
    = ["MOD13/01_Band01_NDVI.vrt"]
  ∧ (band_targets [(Sample.ndvi, "NDVI")] "MOD13" []).*1
    = ["MOD13/Band01_HDF4_EOS:EOS_GRID:MOD13.hdf:grid:NDVI.vrt"]
  ∧ calls (convert_to_vrt Sample.lib [(Sample.ndvi, "NDVI")] "MOD13" [1]
             (mkWorld ∅ [])).2
    = [BuildVRT "MOD13/01_Band01_NDVI.vrt" Sample.ndvi]
  ∧ calls (convert_to_vrt Sample.lib [(Sample.ndvi, "NDVI")] "MOD13" []
             (mkWorld ∅ [])).2
    = [BuildVRT "MOD13/Band01_HDF4_EOS:EOS_GRID:MOD13.hdf:grid:NDVI.vrt"
         Sample.ndvi].
Proof. split_and!; vm_compute; reflexivity. Qed.

(** * Further properties of the script *)

(** ** The entries a computation leaves alone *)

Section untouched.
Context {S : string → Prop}.

Lemma touches_silent {A} (m : M A) :
  (∀ w r w', m w = (r, w') → fs w' = fs w) → touches S m.
Proof. intros Hm w r w' Hrun q _. by rewrite (Hm _ _ _ Hrun). Qed.

Lemma touches_ret {A} (a : A) : touches S (ret a).
Proof. apply touches_silent. by intros w r w' [= _ <-]. Qed.

Lemma touches_raise {A} (e : exn) : touches S (raise (A := A) e).
Proof. apply touches_silent. by intros w r w' [= _ <-]. Qed.

Lemma touches_bind {A B} (m : M A) (k : A → M B) :
  touches S m → (∀ a w w', m w = (Ok a, w') → touches S (k a)) →
  touches S (m ≫= k).
Proof.
  intros Hm Hk w r w' Hrun q Hq. unfold mbind, M_bind, bind in Hrun.
  destruct (m w) as [[a|e] w1] eqn:Hmw.
  - rewrite (Hk a _ _ Hmw _ _ _ Hrun q Hq). by apply (Hm _ _ _ Hmw).
  - simplify_eq. by apply (Hm _ _ _ Hmw).
Qed.

Lemma touches_for_each {A} (l : list A) (body : A → M unit) :
  (∀ x, x ∈ l → touches S (body x)) → touches S (for_each l body).
Proof.
  induction l as [|x l IH]; intros Hbody; simpl.
  - apply touches_ret.
  - apply touches_bind; [apply Hbody; left|].
    intros _ _ _ _. apply IH. intros y Hy. apply Hbody. by right.
Qed.

Lemma touches_emit (e : event) : touches S (emit e).
Proof. apply touches_silent. by intros w r w' [= _ <-]. Qed.

Lemma touches_os_path_exists (path : string) : touches S (os_path_exists path).
Proof. apply touches_silent. by intros w r w' [= _ <-]. Qed.

Lemma touches_parse (path : string) : touches S (parse path).
Proof.
  apply touches_silent. intros w r w'. unfold parse.
  repeat case_match; by intros [= _ <-].
Qed.

Lemma touches_list_files (lib : gdal) (directory extension : string) :
  touches S (list_files lib directory extension).
Proof. apply touches_silent. by intros w r w' [= _ <-]. Qed.

Lemma touches_write_file (path : string) (c : content) :
  S path → touches S (write_file path c).
Proof.
  intros Hpath w r w' [= _ <-] q Hq. simpl.
  apply lookup_insert_ne. by intros ->.
Qed.

Lemma touches_os_makedirs (path : string) : S path → touches S (os_makedirs path).
Proof.
  intros Hpath w r w'. unfold os_makedirs.
  repeat case_match; intros [= _ <-] q Hq; simpl; try done.
  apply lookup_insert_ne. by intros ->.
Qed.

Lemma touches_os_remove (path : string) : S path → touches S (os_remove path).
Proof.
  intros Hpath w r w'. unfold os_remove.
  repeat case_match; intros [= _ <-] q Hq; simpl; try done.
  apply lookup_delete_ne. by intros ->.
Qed.

Lemma touches_shutil_rmtree (path : string) :
  S path → (∀ q, inside path q = true → S q) →
  touches S (shutil_rmtree path).
Proof.
  intros Hpath Hinside w r w'. unfold shutil_rmtree.
  repeat case_match; intros [= _ <-] q Hq; simpl; try done.
  assert (q ≠ path) as Hne by (by intros ->).
  destruct (fs w !! q) as [x|] eqn:Hx.
  - apply map_lookup_filter_Some. rewrite lookup_delete_ne by done.
    split; [done|]. simpl. intros Hin. apply Hq, Hinside.
    by destruct (inside path q).
  - apply map_lookup_filter_None. left. by rewrite lookup_delete_ne.
Qed.

Lemma touches_gdal_SetMetadata (path metadata : string) :
  touches S (gdal_SetMetadata path metadata).
Proof.
  apply touches_silent. intros w r w'. unfold gdal_SetMetadata, emit.
  repeat case_match; by intros [= _ <-].
Qed.

Lemma touches_get_metadata_item (lib : gdal) (subdataset keyword : string) :
  touches S (get_metadata_item lib subdataset keyword).
Proof.
  unfold get_metadata_item.
  repeat case_match; auto using touches_raise, touches_ret.
Qed.

Lemma touches_modify_vrt (vrt scale : string) :
  S vrt → touches S (modify_vrt vrt scale).
Proof.
  intros Hvrt. unfold modify_vrt.
  apply touches_bind; [apply touches_parse|]. intros root _ _ _.
  repeat case_match; auto using touches_raise, touches_write_file.
  apply touches_bind; [by apply touches_write_file|]. intros _ _ _ _.
  apply touches_raise.
Qed.

Lemma touches_build_band (lib : gdal) (output_name source : string) :
  S output_name → touches S (build_band lib output_name source).
Proof.
  intros Hname. unfold build_band, gdal_BuildVRT.
  apply touches_bind.
  - apply touches_bind; [apply touches_emit|]. intros _ _ _ _.
    case_match; auto using touches_ret, touches_write_file.
  - intros _ _ _ _. apply touches_bind; [apply touches_get_metadata_item|].
    intros scale _ _ _. by apply touches_modify_vrt.
Qed.

End untouched.

Lemma touches_impl {A} (S T : string → Prop) (m : M A) :
  (∀ q, S q → T q) → touches S m → touches T m.
Proof.
  intros HST Hm w r w' Hrun q Hq. apply (Hm _ _ _ Hrun). auto.
Qed.

Lemma touches_overwrite_step (DIRECTORY : string) (lib : gdal)
    (overwrite : bool) :
  touches (λ q, overwrite = true ∧ Py.endswith q ".tif" = true)
    (overwrite_step DIRECTORY lib overwrite).
Proof.
  unfold overwrite_step. destruct overwrite; [|apply touches_ret].
  apply touches_bind; [apply touches_list_files|].
  intros [|f files] w w' Hlist; [apply touches_ret|].
  apply touches_os_remove. split; [done|].
  apply (list_files_extension _ _ "tif" _ _ _ _ eq_refl Hlist). left.
Qed.

Lemma touches_create_output_directory (hdf : string) :
  touches (λ q, q = Py.splitext_root hdf) (create_output_directory hdf).
Proof.
  unfold create_output_directory.
  apply touches_bind; [apply touches_os_path_exists|]. intros present _ _ _.
  apply touches_bind; [|intros; apply touches_ret].
  destruct present; [apply touches_ret|by apply touches_os_makedirs].
Qed.

Lemma touches_convert_to_vrt (lib : gdal) (subdatasets : list (string * string))
    (data_dir : string) (bands : list Z) :
  touches (λ q, inside data_dir q = true)
    (convert_to_vrt lib subdatasets data_dir bands).
Proof.
  unfold convert_to_vrt. destruct bands as [|b bands].
  - apply touches_for_each. intros [order sub] _. unfold convert_plain.
    apply touches_build_band, NameFacts.inside_join.
    by apply NameFacts.plain_vrt_name_head.
  - apply touches_for_each. intros [order band] _. unfold convert_band.
    case_match; [|apply touches_raise].
    apply touches_build_band, NameFacts.inside_join.
    by apply NameFacts.band_vrt_name_head.
Qed.

Lemma run_paths_true (hdf : string) (overwrite : bool) (q : string) :
  run_paths hdf overwrite q = true
  ↔ (overwrite = true ∧ Py.endswith q ".tif" = true)
    ∨ q = Py.splitext_root hdf
    ∨ inside (Py.splitext_root hdf) q = true
    ∨ q = vrt_output_of hdf
    ∨ q = output_tiff_of hdf.
Proof.
  unfold run_paths.
  rewrite !orb_true_iff, andb_true_iff, !bool_decide_eq_true. tauto.
Qed.

(** The steps before the warp leave the output path alone, unless it is
    one of the other paths of the run. *)
Lemma touches_prepare (DIRECTORY : string) (lib : gdal) (hdf : string)
    (overwrite : bool) (bands : list Z) :
  touches (λ q, (overwrite = true ∧ Py.endswith q ".tif" = true)
                ∨ q = Py.splitext_root hdf
                ∨ inside (Py.splitext_root hdf) q = true
                ∨ q = vrt_output_of hdf)
    (prepare DIRECTORY lib hdf overwrite bands).
Proof.
  unfold prepare.
  apply touches_bind.
  { eapply touches_impl; [|apply touches_overwrite_step]. intros q; simpl; tauto. }
  intros _ _ _ _. destruct (GetSubDatasets lib hdf) as [subdatasets|];
    [|apply touches_raise].
  apply touches_bind.
  { eapply touches_impl; [|apply touches_create_output_directory].
    intros q; simpl; tauto. }
  intros data_dir w1 w2 [-> _]%create_output_directory_Ok.
  apply touches_bind.
  { eapply touches_impl; [|apply touches_convert_to_vrt]. intros q; simpl; tauto. }
  intros _ _ _ _. apply touches_bind; [|intros; apply touches_ret].
  unfold merge_step. apply touches_bind; [apply touches_list_files|].
  intros files _ _ _. unfold gdal_BuildVRT_list.
  apply touches_bind; [apply touches_emit|]. intros _ _ _ _.
  apply touches_write_file. tauto.
Qed.

Lemma touches_finish (hdf : string) (subdatasets : list (string * string))
    (data_dir : string) :
  touches (λ q, q = data_dir ∨ inside data_dir q = true ∨ q = vrt_output_of hdf)
    (finish hdf subdatasets data_dir).
Proof.
  unfold finish. apply touches_bind.
  { unfold inject_metadata. case_match; [|apply touches_raise].
    apply touches_gdal_SetMetadata. }
  intros _ _ _ _. apply touches_bind; [|intros; apply touches_ret].
  unfold clear_temp_files. apply touches_bind.
  { apply touches_os_remove. tauto. }
  intros _ _ _ _. apply touches_shutil_rmtree; [tauto|].
  intros q Hq. tauto.
Qed.

Lemma touches_warp_step (vrt_output output_tiff : string) (reproject : bool) :
  touches (λ q, q = output_tiff) (warp_step vrt_output output_tiff reproject).
Proof.
  unfold warp_step. apply touches_bind; [apply touches_os_path_exists|].
  intros [] _ _ _; [apply touches_ret|]. unfold gdal_Warp.
  apply touches_bind; [apply touches_emit|]. intros _ _ _ _.
  by apply touches_write_file.
Qed.

Lemma touches_hdf2tif (DIRECTORY : string) (lib : gdal) (hdf : string)
    (overwrite : bool) (bands : list Z) (reproject : bool) :
  touches (λ q, run_paths hdf overwrite q = true)
    (hdf2tif DIRECTORY lib hdf overwrite bands reproject).
Proof.
  intros w r w' Hrun. rewrite hdf2tif_phases in Hrun. revert w r w' Hrun.
  apply touches_bind.
  { eapply touches_impl; [|apply touches_prepare].
    intros q Hq. apply run_paths_true. simpl in Hq. tauto. }
  intros [subdatasets data_dir] w w1 Hprep.
  apply prepare_Ok in Hprep as (? & ? & ? & _ & _ & Hdir & _).
  apply create_output_directory_Ok in Hdir as [-> _].
  apply touches_bind.
  { eapply touches_impl; [|apply touches_warp_step].
    intros q ->. apply run_paths_true. tauto. }
  intros _ _ _ _. eapply touches_impl; [|apply touches_finish].
  intros q Hq. apply run_paths_true. simpl in Hq. tauto.
Qed.

(** ** The working directory of a path with an extension *)

Module SplitextFacts.
Import Py PyFacts PathFacts.

Lemma lstrip_dots_dots (s d r : string) :
  lstrip_dots s = (d, r) → Forall (λ c, c = "."%char) (chars d).
Proof.
  revert d. induction s as [|a s IH]; intros d; simpl.
  - intros [= <- <-]. constructor.
  - destruct (decide (a = "."%char)) as [->|Ha].
    + destruct (lstrip_dots s) as [d' r0]. intros [= <- <-].
      simpl. constructor; [done|]. by apply IH.
    + assert (lstrip_dots (String a s) = (EmptyString, String a s)) as Hnot.
      { simpl. by destruct a as [[] [] [] [] [] [] [] []]. }
      simpl in Hnot. rewrite Hnot. intros [= <- <-]. constructor.
Qed.

(** A suffix free of [x] lies after the last [x]. *)
Lemma suffix_after_last (x : ascii) (l1 r1 l2 r2 : list ascii) :
  l1 ++ x :: r1 = l2 ++ r2 → x ∉ r2 →
  ∃ b, r1 = b ++ r2 ∧ l2 = l1 ++ x :: b.
Proof.
  revert l2. induction l1 as [|a l1 IH]; intros [|b l2] Heq Hr2;
    simplify_eq/=.
  - destruct Hr2. left.
  - by exists l2.
  - destruct Hr2. right. apply elem_of_app. right. left.
  - destruct (IH l2) as (b0 & -> & ->); [done..|]. by exists b0.
Qed.

(** A non-dot character of a string stays after the leading dots are
    stripped. *)
Lemma after_leading_dots (c : ascii) (dots rest b tail : list ascii) :
  Forall (λ x, x = "."%char) dots → c ≠ "."%char →
  dots ++ rest = b ++ c :: tail →
  ∃ y, rest = y ++ c :: tail ∧ b = dots ++ y.
Proof.
  intros Hdots Hc. revert b.
  induction Hdots as [|d dots -> _ IH]; intros b Heq; simpl in *.
  - by exists b.
  - destruct b as [|x b]; simplify_eq/=.
    destruct (IH b) as (y & -> & ->); [done|]. by exists y.
Qed.

(** [os.path.splitext] cuts a last extension off when the character before
    its dot is neither a dot nor a slash. *)
Lemma splitext_root_extension (s : string) (c : ascii) (ext : string) :
  c ≠ "."%char → c ≠ "/"%char →
  "."%char ∉ chars ext → "/"%char ∉ chars ext →
  splitext_root (s +:+ String c (String "." ext)) = s +:+ String c EmptyString.
Proof.
  intros Hdot Hslash Hext_dot Hext_slash.
  set (p := s +:+ String c (String "." ext)).
  unfold splitext_root.
  set (parts := match rsplit_at "/" p with
                | Some (h, b) => (h +:+ "/", b)
                | None => (EmptyString, p)
                end).
  assert (∃ b, chars parts.2 = b ++ c :: "."%char :: chars ext
               ∧ chars s = chars parts.1 ++ b) as (b & Hbase & Hs).
  { unfold parts. destruct (rsplit_at "/" p) as [[h base]|] eqn:Hsplit; simpl.
    - apply rsplit_at_Some in Hsplit as [Hp Hb].
      apply (f_equal chars) in Hp. unfold p in Hp.
      rewrite !chars_app in Hp. simpl in Hp. symmetry in Hp.
      apply suffix_after_last in Hp as (b0 & Hb0 & Hs0).
      + exists b0. split; [done|].
        rewrite chars_app. simpl. by rewrite <-(assoc_L (++)).
      + rewrite !not_elem_of_cons. split_and!; [done|done|done].
    - exists (chars s). split; [|done]. unfold p. by rewrite chars_app. }
  destruct parts as [head base]. simpl in Hbase, Hs.
  destruct (lstrip_dots base) as [dots rest] eqn:Hdots.
  pose proof (lstrip_dots_dots _ _ _ Hdots) as Hall.
  apply lstrip_dots_spec in Hdots as [Hsplit _].
  apply (f_equal chars) in Hsplit. rewrite chars_app, Hbase in Hsplit.
  symmetry in Hsplit.
  apply after_leading_dots in Hsplit as (y & Hrest & ->); [|done..].
  destruct (rsplit_at "." rest) as [[stem e]|] eqn:Hext.
  - apply rsplit_at_Some in Hext as [Hstem He].
    apply (f_equal chars) in Hstem. rewrite chars_app, Hrest in Hstem.
    simpl in Hstem.
    change (y ++ c :: "."%char :: chars ext)
      with (y ++ [c] ++ "."%char :: chars ext) in Hstem.
    rewrite (assoc_L (++)) in Hstem.
    apply split_last_unique in Hstem as [Hy _]; [|done..].
    apply chars_inj. rewrite !chars_app, Hs, <-Hy. simpl.
    by rewrite <-!(assoc_L (++)).
  - apply rsplit_at_None in Hext. destruct Hext. rewrite Hrest.
    apply elem_of_app. right. right. left.
Qed.

End SplitextFacts.

(** ** Paths derived from the input path *)

Module InputFacts.
Import Py PyFacts PathFacts.

Lemma app_inv_l (a b c : string) : a +:+ b = a +:+ c → b = c.
Proof.
  intros H. apply chars_inj. apply (f_equal chars) in H.
  rewrite !chars_app in H. by apply app_inv_head in H.
Qed.

Lemma replace_from_absent (fuel : nat) (c : ascii) (old new s : string) :
  contains (String c old) s = false →
  replace_from fuel (String c old) new s = s.
Proof.
  revert s. induction fuel as [|fuel IH]; intros s Hs; [done|].
  cbn [replace_from].
  assert (strip_prefix (String c old) s = None) as ->.
  { apply startswith_false.
    by apply (proj1 (contains_false _ _) Hs EmptyString s). }
  destruct s as [|a s]; [done|]. f_equal. apply IH.
  simpl in Hs. by apply orb_false_iff in Hs as [_ Hs].
Qed.

(** [s.replace(old, new)] is [s] when [old] does not occur in it. *)
Lemma replace_absent (c : ascii) (old new s : string) :
  contains (String c old) s = false → replace s (String c old) new = s.
Proof. apply replace_from_absent. Qed.

Lemma contains_true (sub s : string) :
  contains sub s = true ↔ ∃ t1 t2, s = t1 +:+ sub +:+ t2.
Proof.
  induction s as [|a s IH]; simpl.
  - rewrite orb_false_r, startswith_true. split.
    + intros [r Hr]. by exists EmptyString, r.
    + intros ([|b t1] & t2 & Ht); [by exists t2|by rewrite app_cons in Ht].
  - rewrite orb_true_iff, IH, startswith_true. split.
    + intros [[r Hr]|(t1 & t2 & ->)].
      * by exists EmptyString, r.
      * by exists (String a t1), t2.
    + intros ([|b t1] & t2 & Ht).
      * left. by exists t2.
      * rewrite app_cons in Ht. injection Ht as -> ->. right. by exists t1, t2.
Qed.

(** The characters of a substring are characters of the string. *)
Lemma contains_chars (sub s : string) (x : ascii) :
  contains sub s = true → x ∈ chars sub → x ∈ chars s.
Proof.
  intros (t1 & t2 & ->)%contains_true Hx. rewrite !chars_app.
  apply elem_of_app. right. apply elem_of_app. by left.
Qed.

Lemma contains_char_elem (x : ascii) (s : string) :
  contains (String x EmptyString) s = false ↔ x ∉ chars s.
Proof.
  induction s as [|a s IH]; simpl.
  - split; [intros _; apply not_elem_of_nil|done].
  - rewrite orb_false_iff, IH, not_elem_of_cons.
    unfold startswith. simpl. rewrite bool_decide_eq_false.
    case_decide as Hxa; split.
    + intros [Hno _]. destruct Hno. by eexists.
    + intros [Hno _]. by subst.
    + intros [_ Hno]. by split; [intros ->|].
    + intros [_ Hno]. split; [by intros []|done].
Qed.

Lemma last_chars_snoc (s : string) (c : ascii) :
  last (chars s) = Some c ↔ ∃ t, s = t +:+ String c EmptyString.
Proof.
  split.
  - intros (l & Hl)%last_Some. exists (String.string_of_list_ascii l).
    apply chars_inj.
    by rewrite chars_app, String.list_ascii_of_string_of_list_ascii.
  - intros [t ->]. rewrite chars_app. apply last_snoc.
Qed.

Lemma well_named_true (stem : string) :
  well_named stem = true
  ↔ (∃ t c, stem = t +:+ String c EmptyString
            ∧ c ≠ "."%char ∧ c ≠ "/"%char)
    ∧ contains ".hdf" stem = false ∧ contains ".vrt" stem = false.
Proof.
  unfold well_named.
  rewrite !andb_true_iff, !negb_true_iff. split.
  - intros [[Hlast ?] ?]. split; [|done].
    destruct (last (chars stem)) as [c|] eqn:Hc; [|done].
    apply last_chars_snoc in Hc as [t ->]. exists t, c.
    apply negb_true_iff, bool_decide_eq_false in Hlast. tauto.
  - intros [(t & c & -> & ? & ?) [? ?]]. split_and!; [|done..].
    rewrite (proj2 (last_chars_snoc _ c)) by eauto.
    apply negb_true_iff, bool_decide_eq_false. tauto.
Qed.

(** The working directory, the merged VRT and the output of a well-named
    input: the stem, and the stem with the two other extensions. *)
Lemma well_named_paths (stem : string) :
  well_named stem = true →
  splitext_root (stem +:+ ".hdf") = stem
  ∧ vrt_output_of (stem +:+ ".hdf") = stem +:+ ".vrt"
  ∧ output_tiff_of (stem +:+ ".hdf") = stem +:+ ".tif"
  ∧ dir_prefix stem = stem +:+ "/".
Proof.
  intros [(t & c & -> & Hdot & Hslash) [Hhdf Hvrt]]%well_named_true.
  destruct (output_paths_of_stem _ Hhdf Hvrt) as [-> ->].
  split_and!; [|done..|].
  - rewrite app_assoc, app_cons, app_nil_l.
    change ".hdf" with (String "." "hdf").
    apply SplitextFacts.splitext_root_extension; [done..| |];
      intros H; not_in_literal H.
  - unfold dir_prefix, join. simpl.
    assert (endswith (t +:+ String c EmptyString) "/" = false) as ->.
    { apply not_true_is_false. intros [u Hu]%endswith_true.
      apply (f_equal chars) in Hu. rewrite !chars_app in Hu. simpl in Hu.
      apply app_inj_2 in Hu as [_ Hu]; [|done]. by simplify_eq. }
    rewrite orb_false_r.
    assert (bool_decide (t +:+ String c EmptyString = EmptyString) = false)
      as ->.
    { apply bool_decide_eq_false. by destruct t. }
    reflexivity.
Qed.

(** No path the run writes to or deletes is the input path itself. *)
Lemma input_not_in_run_paths (stem : string) (overwrite : bool) :
  well_named stem = true →
  run_paths (stem +:+ ".hdf") overwrite (stem +:+ ".hdf") = false.
Proof.
  intros Hstem. apply not_true_is_false. rewrite run_paths_true.
  destruct (well_named_paths _ Hstem) as (-> & -> & -> & Hprefix).
  intros [[_ Hglob]|[Heq|[Hin|[Heq|Heq]]]].
  - apply endswith_true in Hglob as [u Hu].
    apply (f_equal chars) in Hu. rewrite !chars_app in Hu.
    apply app_inj_2 in Hu as [_ Hu]; [|done]. by simplify_eq.
  - rewrite <-(app_nil_r stem) in Heq at 2. by apply app_inv_l in Heq.
  - unfold inside in Hin. rewrite Hprefix in Hin.
    apply startswith_true in Hin as [r Hr].
    rewrite app_assoc in Hr. by apply app_inv_l in Hr.
  - by apply app_inv_l in Heq.
  - by apply app_inv_l in Heq.
Qed.

End InputFacts.

(** ** What a run does to the rest of the disk, and to its input *)

(** X2.  The input file of a well-named input (a stem that ends with a
    character other than a dot or a slash and contains neither [.hdf] nor
    [.vrt], followed by [.hdf]) is never written to nor deleted, however
    the run ends. *)
Theorem input_file_untouched (DIRECTORY : string) (lib : gdal)
    (stem : string) (overwrite : bool) (bands : list Z) (reproject : bool)
    (w : world) (r : result string) (w' : world) :
  well_named stem = true →
  hdf2tif DIRECTORY lib (stem +:+ ".hdf") overwrite bands reproject w
    = (r, w') →
  fs w' !! (stem +:+ ".hdf") = fs w !! (stem +:+ ".hdf").
Proof.
  intros Hstem Hrun. apply (touches_hdf2tif _ _ _ _ _ _ _ _ _ Hrun).
  by rewrite InputFacts.input_not_in_run_paths.
Qed.

Lemma input_file_untouched_witness :
  fs (hdf2tif "/opt/geo" Sample.lib ("pair" +:+ ".hdf") true [] true
        Sample.two_tiffs).2 !! ("pair" +:+ ".hdf")
  = fs Sample.two_tiffs !! ("pair" +:+ ".hdf").
Proof.
  apply (input_file_untouched "/opt/geo" Sample.lib "pair" true [] true
           Sample.two_tiffs
           (hdf2tif "/opt/geo" Sample.lib ("pair" +:+ ".hdf") true [] true
              Sample.two_tiffs).1);
    [reflexivity|apply surjective_pairing].
Defined.

(** X3.  When the input path does not contain [.hdf] in lower case, the
    merged VRT is written over the input file ([replace] changes nothing),
    and the cleanup of a completed run deletes it; when the path contains
    no [.vrt] either, the path returned is the input path. *)
Theorem input_without_hdf_is_deleted (DIRECTORY : string) (lib : gdal)
    (hdf : string) (overwrite : bool) (bands : list Z) (reproject : bool)
    (w : world) (p : string) (w' : world) :
  Py.contains ".hdf" hdf = false →
  hdf2tif DIRECTORY lib hdf overwrite bands reproject w = (Ok p, w') →
  vrt_output_of hdf = hdf
  ∧ fs w' !! hdf = None
  ∧ (Py.contains ".vrt" hdf = false → p = hdf).
Proof.
  intros Hhdf Hrun.
  assert (vrt_output_of hdf = hdf) as Hvrt
    by by apply InputFacts.replace_absent.
  apply hdf2tif_Ok in Hrun as (subdatasets & data_dir & w1 & w2 & _ & _ & Hfin).
  split_and!; [done| |].
  - destruct (fs w' !! hdf) as [x|] eqn:Hx; [|done].
    apply (finish_lookup _ _ _ _ _ _ _ _ Hfin) in Hx as (_ & Hne & _).
    by rewrite Hvrt in Hne.
  - intros Hno. apply finish_Ok in Hfin as (_ & _ & _ & _ & _ & ->).
    unfold output_tiff_of. rewrite Hvrt.
    by apply InputFacts.replace_absent.
Qed.

Lemma input_without_hdf_is_deleted_witness :
  vrt_output_of "MOD09.HDF" = "MOD09.HDF"
  ∧ fs (hdf2tif "/opt/geo" Sample.lib "MOD09.HDF" false [] true
          Sample.disk).2 !! "MOD09.HDF" = None
  ∧ (Py.contains ".vrt" "MOD09.HDF" = false → "MOD09.HDF" = "MOD09.HDF").
Proof.
  apply (input_without_hdf_is_deleted "/opt/geo" Sample.lib "MOD09.HDF"
           false [] true Sample.disk "MOD09.HDF");
    [reflexivity|vm_compute; reflexivity].
Defined.

(** ** How a run ends early *)

Lemma appends_nothing {A} (m : M A) (w w' : world) (r : result A) :
  appends (λ _, False) m → m w = (r, w') → calls w' = calls w.
Proof.
  intros Hm Hrun. destruct (Hm _ _ _ Hrun) as (l & -> & Hl).
  destruct l as [|e l]; [by rewrite app_nil_r|]. by inversion Hl.
Qed.

(** X5.  The [try] around the overwrite step catches [IndexError] only:
    when the first [.tif] entry listed beside the script is a directory,
    [os.remove] raises [OSError] and the whole run ends with it, before
    GDAL is asked anything and with the disk and the trace as they were. *)
Theorem first_tiff_directory_aborts (DIRECTORY : string) (lib : gdal)
    (hdf : string) (bands : list Z) (reproject : bool) (w : world)
    (f : string) (files : list string) :
  list_files lib DIRECTORY "tif" w = (Ok (f :: files), w) →
  fs w !! f = Some Dir →
  overwrite_step DIRECTORY lib true w = (Raise OSError, w)
  ∧ hdf2tif DIRECTORY lib hdf true bands reproject w = (Raise OSError, w)
  ∧ is_LookupError OSError = false.
Proof.
  intros Hlist Hdir.
  assert (overwrite_step DIRECTORY lib true w = (Raise OSError, w)) as Hstep.
  { unfold overwrite_step, mbind, M_bind, bind. rewrite Hlist.
    unfold os_remove. by rewrite Hdir. }
  split_and!; [done| |done].
  unfold hdf2tif, mbind, M_bind, bind. by rewrite Hstep.
Qed.

Lemma first_tiff_directory_aborts_witness :
  overwrite_step "/opt/geo" Sample.lib true Sample.tiff_directory
    = (Raise OSError, Sample.tiff_directory)
  ∧ hdf2tif "/opt/geo" Sample.lib "pair.hdf" true [1] true
      Sample.tiff_directory
    = (Raise OSError, Sample.tiff_directory)
  ∧ is_LookupError OSError = false.
Proof.
  apply (first_tiff_directory_aborts "/opt/geo" Sample.lib "pair.hdf" [1]
           true Sample.tiff_directory "/opt/geo/tiles.tif" []);
    reflexivity.
Defined.



Lemma no_metadata_calls (l : list event) :
  Forall (λ e, ¬ is_metadata_call e) l →
  Forall (λ ev, is_metadata_call ev = false) l.
Proof.
  intros Hl. eapply Forall_impl; [exact Hl|]. intros ev Hev. simpl in Hev.
  destruct (is_metadata_call ev); [by destruct Hev|done].
Qed.

(** X7.  The labels are built from every subdataset, requested or not: as
    soon as one subdataset name has fewer than five colon-separated
    fields, no run completes, and no run attaches metadata. *)
Theorem short_name_never_completes (DIRECTORY : string) (lib : gdal)
    (hdf : string) (overwrite : bool) (bands : list Z) (reproject : bool)
    (subdatasets : list (string * string)) (sub : string * string)
    (w : world) :
  GetSubDatasets lib hdf = Some subdatasets →
  sub ∈ subdatasets →
  (length (Py.split ":" sub.1) < 5)%nat →
  ∃ e w' l,
    hdf2tif DIRECTORY lib hdf overwrite bands reproject w = (Raise e, w')
    ∧ calls w' = calls w ++ l
    ∧ Forall (λ ev, is_metadata_call ev = false) l.
Proof.
  intros Hsubs Hsub Hshort.
  assert (band_names 0 subdatasets = None) as Hnames.
  { destruct (band_names 0 subdatasets) as [labels|] eqn:Hlabels; [|done].
    apply band_names_Some in Hlabels as (fragments & Hall & _).
    apply list_elem_of_lookup in Hsub as [i Hi].
    destruct (Forall2_lookup_l _ _ _ _ _ Hall Hi) as (fragment & _ & Hfrag).
    apply lookup_lt_Some in Hfrag. lia. }
  rewrite hdf2tif_phases.
  pose proof (appends_prepare_warp DIRECTORY lib hdf overwrite bands reproject)
    as Happ.
  unfold mbind, M_bind, bind in *.
  destruct (prepare DIRECTORY lib hdf overwrite bands w)
    as [[[subs data_dir]|e] w1] eqn:Hprep.
  - assert (subs = subdatasets) as ->.
    { apply prepare_Ok in Hprep as (? & ? & ? & _ & Hs & _). congruence. }
    destruct (warp_step _ _ reproject w1) as [[[]|e] w2] eqn:Hwarp.
    + destruct (Happ w (Ok tt) w2) as (l & Hl & Hnot).
      { by rewrite Hprep. }
      exists IndexError, w2, l. split_and!; [|done|].
      * unfold finish, inject_metadata, mbind, M_bind, bind.
        by rewrite Hnames.
      * by apply no_metadata_calls.
    + destruct (Happ w (Raise e) w2) as (l & Hl & Hnot).
      { by rewrite Hprep. }
      exists e, w2, l. split_and!; [done..|].
      by apply no_metadata_calls.
  - destruct (Happ w (Raise e) w1) as (l & Hl & Hnot).
    { by rewrite Hprep. }
    exists e, w1, l. split_and!; [done..|].
    by apply no_metadata_calls.
Qed.

Lemma short_name_never_completes_witness :
  ∃ e w' l,
    hdf2tif "/opt/geo" Sample.loose "short.hdf" false [1] true Sample.disk
      = (Raise e, w')
    ∧ calls w' = calls Sample.disk ++ l
    ∧ Forall (λ ev, is_metadata_call ev = false) l.
Proof.
  apply (short_name_never_completes "/opt/geo" Sample.loose "short.hdf" false
           [1] true [(Sample.ndvi, "NDVI"); (Sample.sds, "QA")]
           (Sample.sds, "QA"));
    [reflexivity|by right; left|simpl; lia].
Defined.

(** X8.  The trace of a completed run, in full: one [BuildVRT] per
    single-band VRT, in order; one [BuildVRT] of the merged VRT, bands
    kept separate; at most one [Warp], from the merged VRT to the output,
    with the options that the [reproject] flag selects; one [SetMetadata]
    on the output.  Nothing else is called. *)
Theorem calls_of_completed_run (DIRECTORY : string) (lib : gdal)
    (hdf : string) (overwrite : bool) (bands : list Z) (reproject : bool)
    (w : world) (p : string) (w' : world) :
  hdf2tif DIRECTORY lib hdf overwrite bands reproject w = (Ok p, w') →
  ∃ subdatasets srcs warps labels,
    GetSubDatasets lib hdf = Some subdatasets
    ∧ calls w'
      = calls w
        ++ (build_call
              <$> band_targets subdatasets (Py.splitext_root hdf) bands)
        ++ [BuildVRT_list (vrt_output_of hdf) srcs true]
        ++ warps
        ++ [SetMetadata (output_tiff_of hdf) (Py.str_list labels)]
    ∧ (warps = []
       ∨ warps = [warp_call (vrt_output_of hdf) (output_tiff_of hdf) reproject])
    ∧ band_names 0 subdatasets = Some labels.
Proof.
  intros Hrun.
  apply hdf2tif_Ok in Hrun
    as (subdatasets & data_dir & w4 & w5 & Hprep & Hwarp & Hfin).
  apply prepare_Ok in Hprep
    as (w1 & w2 & w3 & Hover & Hsubs & Hdir & Hconv & Hmerge).
  apply (appends_nothing _ _ _ _ (appends_overwrite_step _ _ _)) in Hover.
  pose proof (appends_nothing _ _ _ _ (appends_create_output_directory _) Hdir)
    as Hcalls2.
  apply create_output_directory_Ok in Hdir as [-> _].
  apply convert_to_vrt_Ok in Hconv as (Hcalls3 & _).
  destruct (list_files_Ok lib (Py.splitext_root hdf) "vrt" w3)
    as (files & Hlist).
  unfold merge_step, mbind, M_bind, bind in Hmerge. rewrite Hlist in Hmerge.
  injection Hmerge as <-.
  apply finish_Ok in Hfin as (w6 & w7 & Hinject & Hremove & Hrmtree & _).
  apply (appends_nothing _ _ _ _ (appends_os_remove _)) in Hremove.
  apply (appends_nothing _ _ _ _ (appends_shutil_rmtree _)) in Hrmtree.
  unfold inject_metadata in Hinject.
  destruct (band_names 0 subdatasets) as [labels|] eqn:Hlabels; [|done].
  unfold gdal_SetMetadata in Hinject.
  destruct (fs w5 !! output_tiff_of hdf) as [[|c]|]; simplify_eq.
  assert (∃ warps,
    calls w5 = (calls w3
                ++ [BuildVRT_list (vrt_output_of hdf) (sorted files) true])
               ++ warps
    ∧ (warps = []
       ∨ warps = [warp_call (vrt_output_of hdf) (output_tiff_of hdf)
                    reproject])) as (warps & Hcalls5 & Hwarps).
  { unfold warp_step, os_path_exists, mbind, M_bind, bind in Hwarp.
    case_bool_decide; injection Hwarp as <-.
    - exists []. rewrite app_nil_r. auto.
    - eexists [_]. split; [done|]. by right. }
  injection Hinject as <-.
  exists subdatasets, (sorted files), warps, labels.
  split_and!; [done| |done..].
  rewrite Hrmtree, Hremove. simpl.
  rewrite Hcalls5, Hcalls3, Hcalls2, Hover. by rewrite <-!(assoc_L (++)).
Qed.

Lemma calls_of_completed_run_witness :
  ∃ subdatasets srcs warps labels,
    GetSubDatasets Sample.lib "pair.hdf" = Some subdatasets
    ∧ calls (hdf2tif "/opt/geo" Sample.lib "pair.hdf" true [2; 1] false
               Sample.disk).2
      = calls Sample.disk
        ++ (build_call
              <$> band_targets subdatasets (Py.splitext_root "pair.hdf")
                    [2; 1])
        ++ [BuildVRT_list (vrt_output_of "pair.hdf") srcs true]
        ++ warps
        ++ [SetMetadata (output_tiff_of "pair.hdf") (Py.str_list labels)]
    ∧ (warps = []
       ∨ warps = [warp_call (vrt_output_of "pair.hdf")
                    (output_tiff_of "pair.hdf") false])
    ∧ band_names 0 subdatasets = Some labels.
Proof.
  apply (calls_of_completed_run "/opt/geo" Sample.lib "pair.hdf" true
           [2; 1] false Sample.disk "pair.tif").
  vm_compute. reflexivity.
Defined.

(** ** The helper functions on their own *)





(** X11.  The source hopes for one matching key: when exactly one key of
    the metadata contains the keyword once lower-cased, the value under
    that key is what [get_metadata_item] returns, whatever else the
    dictionary holds and in whatever order. *)
Theorem single_match_is_returned (lib : gdal) (subdataset keyword : string)
    (metadata : gmap string string) (k v : string) (w : world) :
  GetMetadata_Dict lib subdataset = Some metadata →
  metadata !! k = Some v →
  Py.contains keyword (Py.lower k) = true →
  (∀ k', is_Some (metadata !! k') →
         Py.contains keyword (Py.lower k') = true → k' = k) →
  get_metadata_item lib subdataset keyword w = (Ok v, w).
Proof.
  intros Hmeta Hk Hmatch Hunique.
  destruct (get_metadata_item_found lib subdataset keyword metadata Hmeta)
    as (k0 & v0 & _ & Hk0 & Hmatch0 & Hrun); [by eauto|].
  rewrite Hrun. assert (k0 = k) as -> by by apply Hunique.
  congruence.
Qed.

Lemma single_match_is_returned_witness :
  get_metadata_item Sample.lib Sample.ndvi "scale" Sample.disk
  = (Ok "0.0001", Sample.disk).
Proof.
  apply (single_match_is_returned Sample.lib Sample.ndvi "scale"
           {[ "Scale_Factor" := "0.0001"; "units" := "none" ]}
           "Scale_Factor" "0.0001" Sample.disk); [reflexivity..|].
  intros k' [v' Hk'] Hmatch.
  apply lookup_insert_Some in Hk' as [[<- _]|[_ Hk']]; [done|].
  apply lookup_singleton_Some in Hk' as [<- _]. discriminate Hmatch.
Defined.

Lemma lower_char_not_upper (c : ascii) : is_upper (Py.lower_char c) = false.
Proof. by destruct c as [[] [] [] [] [] [] [] []]. Qed.

Lemma lower_not_upper (s : string) (c : ascii) :
  c ∈ chars (Py.lower s) → is_upper c = false.
Proof.
  induction s as [|a s IH]; simpl; [by intros ?%elem_of_nil|].
  intros [->|?]%elem_of_cons; [apply lower_char_not_upper|auto].
Qed.

(** X12.  The keys are lower-cased before the test and the keyword is
    not: a keyword with an upper-case letter matches no key, so
    [get_metadata_item] raises for every data set. *)
Theorem upper_case_keyword_never_matches (lib : gdal)
    (subdataset keyword : string) (w : world) :
  existsb is_upper (chars keyword) = true →
  ∃ e, get_metadata_item lib subdataset keyword w = (Raise e, w)
       ∧ (e = IndexError ∨ e = AttributeError).
Proof.
  intros (c & Hc & Hupper)%existsb_exists. apply list_elem_of_In in Hc.
  destruct (GetMetadata_Dict lib subdataset) as [metadata|] eqn:Hmeta.
  - exists IndexError. split; [|by left].
    apply (get_metadata_item_missing _ _ _ metadata); [done|].
    intros k _. apply not_true_is_false. intros Hmatch.
    pose proof (InputFacts.contains_chars _ _ _ Hmatch Hc) as Hlow.
    apply lower_not_upper in Hlow. congruence.
  - exists AttributeError. split; [|by right].
    unfold get_metadata_item. by rewrite Hmeta.
Qed.

Lemma upper_case_keyword_never_matches_witness :
  ∃ e, get_metadata_item Sample.lib Sample.ndvi "Scale" Sample.disk
       = (Raise e, Sample.disk)
       ∧ (e = IndexError ∨ e = AttributeError).
Proof.
  apply (upper_case_keyword_never_matches Sample.lib Sample.ndvi "Scale"
           Sample.disk).
  reflexivity.
Defined.

(** ** Patching a VRT: failures, and what is left alone *)













(** ** Running one step *)


(** ** Steps that only write files *)

Section writing.

Lemma writes_files_silent {A} (m : M A) :
  (∀ w r w', m w = (r, w') → fs w' = fs w) → writes_files m.
Proof. intros Hm w r w' Hrun q. left. by rewrite (Hm _ _ _ Hrun). Qed.

Lemma writes_files_ret {A} (a : A) : writes_files (ret a).
Proof. apply writes_files_silent. by intros w r w' [= _ <-]. Qed.

Lemma writes_files_raise {A} (e : exn) : writes_files (raise (A := A) e).
Proof. apply writes_files_silent. by intros w r w' [= _ <-]. Qed.

Lemma writes_files_bind {A B} (m : M A) (k : A → M B) :
  writes_files m → (∀ a, writes_files (k a)) → writes_files (m ≫= k).
Proof.
  intros Hm Hk w r w' Hrun q. unfold mbind, M_bind, bind in Hrun.
  destruct (m w) as [[a|e] w1] eqn:Hmw.
  - destruct (Hk a _ _ _ Hrun q) as [->|?]; [|by right].
    by apply (Hm _ _ _ Hmw).
  - simplify_eq. by apply (Hm _ _ _ Hmw).
Qed.

Lemma writes_files_for_each {A} (l : list A) (body : A → M unit) :
  (∀ x, writes_files (body x)) → writes_files (for_each l body).
Proof.
  intros Hbody. induction l as [|x l IH]; simpl.
  - apply writes_files_ret.
  - apply writes_files_bind; [apply Hbody|]. by intros _.
Qed.

Lemma writes_files_emit (e : event) : writes_files (emit e).
Proof. apply writes_files_silent. by intros w r w' [= _ <-]. Qed.

Lemma writes_files_os_path_exists (path : string) :
  writes_files (os_path_exists path).
Proof. apply writes_files_silent. by intros w r w' [= _ <-]. Qed.

Lemma writes_files_list_files (lib : gdal)
    (directory extension : string) :
  writes_files (list_files lib directory extension).
Proof. apply writes_files_silent. by intros w r w' [= _ <-]. Qed.

Lemma writes_files_parse (path : string) : writes_files (parse path).
Proof.
  apply writes_files_silent. intros w r w'. unfold parse.
  repeat case_match; by intros [= _ <-].
Qed.

Lemma writes_files_write_file (path : string) (c : content) :
  writes_files (write_file path c).
Proof.
  intros w r w' [= _ <-] q. simpl. destruct (decide (q = path)) as [->|Hne].
  - right. exists c. apply lookup_insert_eq.
  - left. by apply lookup_insert_ne.
Qed.

Lemma writes_files_get_metadata_item (lib : gdal) (subdataset keyword : string) :
  writes_files (get_metadata_item lib subdataset keyword).
Proof.
  unfold get_metadata_item.
  repeat case_match; auto using writes_files_raise, writes_files_ret.
Qed.

Lemma writes_files_modify_vrt (vrt scale : string) :
  writes_files (modify_vrt vrt scale).
Proof.
  unfold modify_vrt. apply writes_files_bind; [apply writes_files_parse|].
  intros root.
  repeat case_match; auto using writes_files_raise, writes_files_write_file.
  apply writes_files_bind; [apply writes_files_write_file|]. intros _.
  apply writes_files_raise.
Qed.

Lemma writes_files_build_band (lib : gdal) (output_name source : string) :
  writes_files (build_band lib output_name source).
Proof.
  unfold build_band, gdal_BuildVRT. apply writes_files_bind.
  - apply writes_files_bind; [apply writes_files_emit|]. intros _.
    case_match; auto using writes_files_ret, writes_files_write_file.
  - intros _. apply writes_files_bind; [apply writes_files_get_metadata_item|].
    intros scale. apply writes_files_modify_vrt.
Qed.

Lemma writes_files_convert_to_vrt (lib : gdal)
    (subdatasets : list (string * string)) (data_dir : string)
    (bands : list Z) :
  writes_files (convert_to_vrt lib subdatasets data_dir bands).
Proof.
  unfold convert_to_vrt. destruct bands as [|b bands].
  - apply writes_files_for_each. intros [order sub].
    apply writes_files_build_band.
  - apply writes_files_for_each. intros [order band]. unfold convert_band.
    case_match; [apply writes_files_build_band|apply writes_files_raise].
Qed.

Lemma writes_files_merge_step (lib : gdal) (data_dir vrt_output : string) :
  writes_files (merge_step lib data_dir vrt_output).
Proof.
  unfold merge_step. apply writes_files_bind; [apply writes_files_list_files|].
  intros files. unfold gdal_BuildVRT_list.
  apply writes_files_bind; [apply writes_files_emit|]. intros _.
  apply writes_files_write_file.
Qed.

Lemma writes_files_warp_step (vrt_output output_tiff : string)
    (reproject : bool) :
  writes_files (warp_step vrt_output output_tiff reproject).
Proof.
  unfold warp_step. apply writes_files_bind; [apply writes_files_os_path_exists|].
  intros []; [apply writes_files_ret|]. unfold gdal_Warp.
  apply writes_files_bind; [apply writes_files_emit|]. intros _.
  apply writes_files_write_file.
Qed.

Lemma writes_files_inject_metadata (subdatasets : list (string * string))
    (output_tiff : string) :
  writes_files (inject_metadata subdatasets output_tiff).
Proof.
  unfold inject_metadata. case_match; [|apply writes_files_raise].
  apply writes_files_silent. intros w r w'. unfold gdal_SetMetadata, emit.
  repeat case_match; by intros [= _ <-].
Qed.


End writing.

Lemma bind_assoc {A B C} (m : M A) (k : A → M B) (h : B → M C) (w : world) :
  ((m ≫= k) ≫= h) w = (m ≫= λ a, k a ≫= h) w.
Proof. unfold mbind, M_bind, bind. by destruct (m w) as [[a|e] w1]. Qed.



(** X17.  From the conversion of the bands to the labelling of the
    output, a run only writes regular files: however these steps end,
    every path holds afterwards what it held before or a regular file, so
    that nothing has been deleted and no directory made. *)
Theorem steps_only_write_files (lib : gdal)
    (subdatasets : list (string * string)) (data_dir hdf : string)
    (bands : list Z) (reproject : bool) (w : world) (r : result unit)
    (w' : world) (q : string) :
  (convert_to_vrt lib subdatasets data_dir bands ;;
   merge_step lib data_dir (vrt_output_of hdf) ;;
   warp_step (vrt_output_of hdf) (output_tiff_of hdf) reproject ;;
   inject_metadata subdatasets (output_tiff_of hdf)) w = (r, w') →
  fs w' !! q = fs w !! q ∨ ∃ c, fs w' !! q = Some (File c).
Proof.
  intros Hrun. revert w r w' Hrun q. change (writes_files
    (convert_to_vrt lib subdatasets data_dir bands ;;
     merge_step lib data_dir (vrt_output_of hdf) ;;
     warp_step (vrt_output_of hdf) (output_tiff_of hdf) reproject ;;
     inject_metadata subdatasets (output_tiff_of hdf))).
  apply writes_files_bind; [apply writes_files_convert_to_vrt|]. intros _.
  apply writes_files_bind; [apply writes_files_merge_step|]. intros _.
  apply writes_files_bind; [apply writes_files_warp_step|]. intros _.
  apply writes_files_inject_metadata.
Qed.

Lemma steps_only_write_files_witness :
  let steps :=
    convert_to_vrt Sample.lib [(Sample.ndvi, "NDVI"); (Sample.quality, "QA")]
      "pair" [] ;;
    merge_step Sample.lib "pair" (vrt_output_of "pair.hdf") ;;
    warp_step (vrt_output_of "pair.hdf") (output_tiff_of "pair.hdf") true ;;
    inject_metadata [(Sample.ndvi, "NDVI"); (Sample.quality, "QA")]
      (output_tiff_of "pair.hdf") in
  fs (steps Sample.leftover).2 !! "pair" = fs Sample.leftover !! "pair"
  ∨ ∃ c, fs (steps Sample.leftover).2 !! "pair" = Some (File c).
Proof.
  intros steps.
  apply (steps_only_write_files Sample.lib
           [(Sample.ndvi, "NDVI"); (Sample.quality, "QA")] "pair" "pair.hdf"
           [] true Sample.leftover (steps Sample.leftover).1).
  apply surjective_pairing.
Defined.



(** ** The cleanup, and the working directory of a well-named input *)





(** ** The bands of a completed conversion *)

(** X23.  A conversion with a band list that completes has served every
    request, in the order of the list, from the subdataset at that
    1-based position: every requested band is between 1 and the number of
    subdatasets, and the [k]-th call builds, from that subdataset, the VRT
    named after the sequence number [k + 1], the band and the last field
    of the subdataset name.  A band that is listed twice is built twice. *)
Theorem converted_bands_are_positions (lib : gdal)
    (subdatasets : list (string * string)) (data_dir : string)
    (bands : list Z) (w w' : world) :
  bands ≠ [] →
  convert_to_vrt lib subdatasets data_dir bands w = (Ok tt, w') →
  ∃ l, calls w' = calls w ++ l
       ∧ length l = length bands
       ∧ ∀ k band, bands !! k = Some band →
           ∃ name description,
             1 ≤ band ≤ Z.of_nat (length subdatasets)
             ∧ subdatasets !! (Z.to_nat band - 1)%nat = Some (name, description)
             ∧ l !! k
               = Some (BuildVRT
                         (Py.join data_dir (band_vrt_name (S k) band name))
                         name).
Proof.
  intros Hbands Hrun.
  apply convert_to_vrt_Ok in Hrun as (Hcalls & _ & Hlen & Hall).
  specialize (Hall Hbands).
  set (targets := band_targets subdatasets data_dir bands) in *.
  exists (build_call <$> targets). split_and!; [done| |].
  - rewrite length_fmap, Hlen. by destruct bands.
  - intros k band Hk.
    assert (enumerate 1 bands !! k = Some (S k, band)) as Hitem.
    { unfold enumerate. by rewrite list_lookup_imap, Hk. }
    destruct (Forall2_lookup_l _ _ _ _ _ Hall Hitem) as (t & Ht & Htarget).
    unfold band_target in Htarget.
    destruct (band_dict subdatasets bands !! band) as [[name description]|]
      eqn:Hdict; [|done].
    injection Htarget as <-.
    apply band_dict_lookup in Hdict as (_ & i & -> & Hi).
    exists name, description. split_and!.
    + lia.
    + apply lookup_lt_Some in Hi. lia.
    + by replace (Z.to_nat (Z.of_nat (S i)) - 1)%nat with i by lia.
    + by rewrite list_lookup_fmap, Ht.
Qed.

Lemma converted_bands_are_positions_witness :
  ∃ l, calls (convert_to_vrt Sample.lib
                [(Sample.ndvi, "NDVI"); (Sample.evi, "EVI")] "pair" [2; 2; 1]
                Sample.disk).2
       = calls Sample.disk ++ l
       ∧ length l = length [2; 2; 1]
       ∧ ∀ k band, [2; 2; 1] !! k = Some band →
           ∃ name description,
             1 ≤ band ≤ Z.of_nat (length [(Sample.ndvi, "NDVI"); (Sample.evi, "EVI")])
             ∧ [(Sample.ndvi, "NDVI"); (Sample.evi, "EVI")]
                 !! (Z.to_nat band - 1)%nat = Some (name, description)
             ∧ l !! k
               = Some (BuildVRT
                         (Py.join "pair" (band_vrt_name (S k) band name))
                         name).
Proof.
  apply (converted_bands_are_positions Sample.lib
           [(Sample.ndvi, "NDVI"); (Sample.evi, "EVI")] "pair" [2; 2; 1]
           Sample.disk);
    [discriminate|vm_compute; reflexivity].
Defined.
